(** * Notification dispatch: the POST /notification handler of main.go

    A shallow embedding of the handler registered in [main] together
    with the parts of the Go runtime it leans on (map indexing, append,
    encoding/json decoding into [EmailMetadata]), and the properties of
    the dispatch core established on it. *)

From Stdlib Require Import ZArith NArith Ascii String List Lia.
From stdpp Require Import base tactics option list gmap strings.

Set Warnings "-register-all".

Local Open Scope Z_scope.

(** ** Data model *)

(** [type DeliveryRoute string] and [type NotificationType string]: any
    string can arrive in the envelope, the constants name the known ones. *)
Definition DeliveryRoute := string.
Definition NotificationType := string.

Definition Email : DeliveryRoute := "email".
Definition System : DeliveryRoute := "system".
Definition Instant : NotificationType := "instant".
Definition Batch : NotificationType := "batch".

(** A JSON text, by its syntax tree.  Object members are kept in document
    order, duplicates included; a number keeps its literal. *)
Inductive json : Type :=
  | JNull
  | JBool (b : bool)
  | JNumber (literal : string)
  | JString (s : string)
  | JArray (elements : list json)
  | JObject (members : list (string * json)).

(** [json.RawMessage].  The handler only sees the envelope once
    [ShouldBindJSON] has accepted it, so the raw bytes of [metadata] are
    either empty (the key was absent: [None]) or the text of one
    well-formed JSON value ([Some v]). *)
Definition RawMessage := option json.

(** Go's [error] values that occur here; [nil] is [None] in [option error]. *)
Inductive error : Type :=
  | SyntaxError (msg : string)
  | UnmarshalTypeError (Value : string) (Field : string)
  | errorString (msg : string).

Module Notification.
Record Notification : Type := {
  Date : string;
  EventName : string;
  DeliveryRoute : DeliveryRoute;
  NotificationType : NotificationType;
  Metadata : RawMessage
}.
End Notification.
Abbreviation Notification := Notification.Notification.

Record EmailMetadata : Type := {
  EmailAddress : string;
  EmailBody : string
}.

Record SystemMetadata : Type := {
  UUID : string;
  Body : string
}.

(** The zero value a [var emailMetadata EmailMetadata] starts from. *)
Definition zeroEmailMetadata : EmailMetadata := {| EmailAddress := ""; EmailBody := "" |}.

#[global] Instance EmailMetadata_inhabited : Inhabited EmailMetadata :=
  populate zeroEmailMetadata.

(** ** encoding/json: decoding into [EmailMetadata]

    [json.Unmarshal] is Go's standard library, not code of main.go; the
    handler's answer to a payload depends on it, so its behaviour on a
    struct of two string fields is written out here: members are decoded
    in document order ([decodeState.object]), a value is stored by
    [literalStore], the first type error is saved and returned at the end,
    unknown keys are skipped, and nothing requires a member to be there. *)

Module Json.

(** [b & caseMask], with [caseMask = ^byte(0x20)]. *)
Definition caseMask (b : ascii) : N := N.land (N_of_ascii b) 223.

Definition isLetter (b : ascii) : bool :=
  ((65 <=? caseMask b) && (caseMask b <=? 90))%N.

Definition isByte (n : N) (b : ascii) : bool := (N_of_ascii b =? n)%N.

(** Case-insensitive comparison of an ASCII field name [s] with a key
    [t] under Unicode simple folding: besides the two cases of a
    letter, the long s (U+017F, bytes C5 BF) folds to s and the Kelvin
    sign (U+212A, bytes E2 84 AA) folds to k. *)
Fixpoint equalFold (s t : string) : bool :=
  match s, t with
  | EmptyString, EmptyString => true
  | EmptyString, String _ _ => false
  | String _ _, EmptyString => false
  | String sb s', String tb t' =>
      if (N_of_ascii tb <? 128)%N then
        (Ascii.eqb sb tb || (isLetter sb && (caseMask sb =? caseMask tb)%N))
        && equalFold s' t'
      else
        match t' with
        | String t1 t'' =>
            if isByte 197 tb && isByte 191 t1 then
              (caseMask sb =? 83)%N && equalFold s' t''
            else
              match t'' with
              | String t2 t''' =>
                  isByte 226 tb && isByte 132 t1 && isByte 170 t2
                  && (caseMask sb =? 75)%N && equalFold s' t'''
              | EmptyString => false
              end
        | EmptyString => false
        end
  end.

(** The exported fields of [EmailMetadata] with their [json:] tags. *)
Inductive field : Type := fEmailAddress | fEmailBody.

Definition name (f : field) : string :=
  match f with
  | fEmailAddress => "emailAddress"
  | fEmailBody => "emailBody"
  end.

Definition fields : list field := [fEmailAddress; fEmailBody].

(** The field a key selects: an exact match is preferred, a
    case-insensitive match is accepted, anything else is ignored. *)
Definition findField (key : string) : option field :=
  match List.find (fun f => String.eqb (name f) key) fields with
  | Some f => Some f
  | None => List.find (fun f => equalFold (name f) key) fields
  end.

(** The decoder state: the struct being filled and the first error saved. *)
Definition decodeState : Type := EmailMetadata * option error.

Definition saveError (err : error) (d : decodeState) : decodeState :=
  match d.2 with
  | None => (d.1, Some err)
  | Some _ => d
  end.

Definition setString (f : field) (s : string) (v : EmailMetadata) : EmailMetadata :=
  match f with
  | fEmailAddress => {| EmailAddress := s; EmailBody := EmailBody v |}
  | fEmailBody => {| EmailAddress := EmailAddress v; EmailBody := s |}
  end.

(** Storing a value into a field of Go type [string]: a JSON string is
    stored, [null] leaves the field alone, every other value is a type
    error (saved; decoding goes on). *)
Definition value (f : field) (item : json) (d : decodeState) : decodeState :=
  match item with
  | JString s => (setString f s d.1, d.2)
  | JNull => d
  | JBool _ => saveError (UnmarshalTypeError "bool" (name f)) d
  | JNumber _ => saveError (UnmarshalTypeError "number" (name f)) d
  | JArray _ => saveError (UnmarshalTypeError "array" (name f)) d
  | JObject _ => saveError (UnmarshalTypeError "object" (name f)) d
  end.

(** Members are decoded in document order; a key without a field is skipped. *)
Fixpoint object (members : list (string * json)) (d : decodeState) : decodeState :=
  match members with
  | [] => d
  | (key, item) :: rest =>
      match findField key with
      | Some f => object rest (value f item d)
      | None => object rest d
      end
  end.

(** [json.Unmarshal(data, &v)] for [v : EmailMetadata]: the struct after
    the call and the error returned. *)
Definition Unmarshal (data : RawMessage) (v : EmailMetadata) : EmailMetadata * option error :=
  match data with
  | None => (v, Some (SyntaxError "unexpected end of JSON input"))
  | Some JNull => (v, None)
  | Some (JObject members) => object members (v, None)
  | Some (JArray _) => (v, Some (UnmarshalTypeError "array" ""))
  | Some (JBool _) => (v, Some (UnmarshalTypeError "bool" ""))
  | Some (JNumber _) => (v, Some (UnmarshalTypeError "number" ""))
  | Some (JString _) => (v, Some (UnmarshalTypeError "string" ""))
  end.

End Json.

(** ** Collaborators

    The two interfaces of main.go.  A method runs against the world
    outside the process ([W]: the mail transport, the database) and may
    change it; it returns Go's [error]. *)

Record EmailService (W : Type) : Type := {
  SendEmail : string -> string -> W -> option error * W
}.
Arguments SendEmail {W} _ _ _ _.

Record NotificationRepository (W : Type) : Type := {
  GetAll : W -> (list Notification * option error) * W;
  Remove : string -> W -> option error * W;
  MarkAsRead : string -> W -> option error * W;
  Insert : Notification -> W -> option error * W
}.
Arguments GetAll {W} _ _.
Arguments Remove {W} _ _ _.
Arguments MarkAsRead {W} _ _ _.
Arguments Insert {W} _ _ _.

(** The implementations of the repository: all of them are stubs. *)
Definition SMTPService {W : Type} : EmailService W :=
  {| SendEmail := fun address body w => (None, w) |}.

Definition OtherProtocolService {W : Type} : EmailService W :=
  {| SendEmail := fun address body w => (None, w) |}.

Definition NotificationRepositoryImpl {W : Type} : NotificationRepository W :=
  {| GetAll := fun w => (([], None), w);
     Remove := fun id w => (None, w);
     MarkAsRead := fun id w => (None, w);
     Insert := fun item w => (None, w) |}.

(** ** The handler *)

(** What the handler answers: [c.JSON(code, gin.H{key: value})], or a
    run-time panic (left to gin's recovery middleware). *)
Inductive Response : Type :=
  | JSON (code : Z) (key value : string)
  | Panic (msg : string).

Definition StatusOK : Z := 200.
Definition StatusBadRequest : Z := 400.
Definition StatusInternalServerError : Z := 500.

(** A collaborator call, as recorded in the order it was made. *)
Inductive Call : Type :=
  | CallSendEmail (address body : string)
  | CallInsert (item : Notification).

(** Everything a request can read or change: the batch map captured by
    the handler closure, the outside world, and the record of the
    collaborator calls made so far. *)
Record State (W : Type) : Type := mkState {
  notificationsMap : gmap string (list EmailMetadata);
  world : W;
  calls : list Call
}.
Arguments mkState {W} _ _ _.
Arguments notificationsMap {W} _.
Arguments world {W} _.
Arguments calls {W} _.

(** The one-character string Go writes as a backslash followed by n. *)
Definition LF : string := String "010"%char EmptyString.

Definition M (W A : Type) : Type := State W -> A * State W.

Definition ret {W A : Type} (a : A) : M W A := fun st => (a, st).

Definition bind {W A B : Type} (c : M W A) (k : A -> M W B) : M W B :=
  fun st => let (a, st') := c st in k a st'.

Declare Scope handler_scope.
Delimit Scope handler_scope with M.
Notation "x <- c ;; k" := (bind c (fun x => k))
  (at level 20, c at level 99, k at level 200) : handler_scope.
Notation "c ;; k" := (bind c (fun _ => k))
  (at level 100, k at level 200, right associativity) : handler_scope.
Local Open Scope handler_scope.

Section Handler.

(** The variables the closure captures besides the map.  [batchAmount]
    is a Go [int]; it is only compared with a length. *)
Context {W : Type}.
Variable emailService : EmailService W.
Variable notificationRepo : NotificationRepository W.
Variable batchAmount : Z.

(** [emailService.SendEmail(address, body)] *)
Definition sendEmail (address body : string) : M W (option error) :=
  fun st =>
    let (err, w) := SendEmail emailService address body (world st) in
    (err, mkState (notificationsMap st) w (calls st ++ [CallSendEmail address body])).

(** [notificationRepo.Insert(item)] *)
Definition insertNotification (item : Notification) : M W (option error) :=
  fun st =>
    let (err, w) := Insert notificationRepo item (world st) in
    (err, mkState (notificationsMap st) w (calls st ++ [CallInsert item])).

(** [notificationsMap[key]]: indexing a Go map yields the zero value,
    the nil slice, for a key that is not there. *)
Definition index (key : string) : M W (list EmailMetadata) :=
  fun st => (notificationsMap st !!! key, st).

(** [notificationsMap[key] = queue] *)
Definition assign (key : string) (queue : list EmailMetadata) : M W unit :=
  fun st => (tt, mkState (<[key := queue]> (notificationsMap st)) (world st) (calls st)).

(** The loop [for _, email := range queue] that appends
    [email.EmailBody] and a line feed to [emailBody]. *)
Definition joinBodies (queue : list EmailMetadata) : string :=
  fold_left (fun emailBody email => emailBody +:+ (EmailBody email +:+ LF)) queue "".

Definition received : Response := JSON StatusOK "message" "Notification received".

(** The closure registered for POST /notification, from the point where
    the envelope is bound.  Every [return] of the source is a leaf that
    answers; the branches that run off the end of the switch answer
    [received]. *)
Definition POST_notification (notification : Notification) : M W Response :=
  if decide (notification.(Notification.DeliveryRoute) = Email) then
    let (emailMetadata, err) :=
      Json.Unmarshal notification.(Notification.Metadata) zeroEmailMetadata in
    match err with
    | Some _ => ret (JSON StatusBadRequest "error" "Invalid email metadata")
    | None =>
      if decide (notification.(Notification.NotificationType) = Instant) then
        err <- sendEmail emailMetadata.(EmailAddress) emailMetadata.(EmailBody);;
        match err with
        | Some _ => ret (JSON StatusInternalServerError "error" "Failed to send email")
        | None => ret received
        end
      else if decide (notification.(Notification.NotificationType) = Batch) then
        queue <- index notification.(Notification.EventName);;
        assign notification.(Notification.EventName) (queue ++ [emailMetadata]);;
        queue <- index notification.(Notification.EventName);;
        if (Z.of_nat (length queue) =? batchAmount)%Z then
          let emailBody := joinBodies queue in
          match queue with
          | [] => ret (Panic "index out of range [0] with length 0")
          | first :: _ =>
            err <- sendEmail first.(EmailAddress) emailBody;;
            match err with
            | Some _ => ret (JSON StatusInternalServerError "error" "Failed to send email")
            | None =>
              assign notification.(Notification.EventName) [];;
              ret received
            end
          end
        else ret received
      else ret received
    end
  else if decide (notification.(Notification.DeliveryRoute) = System) then
    err <- insertNotification notification;;
    match err with
    | Some _ => ret (JSON StatusInternalServerError "error" "Failed to insert notification")
    | None => ret received
    end
  else ret (JSON StatusBadRequest "error" "Invalid notification type").

(** Requests served one after the other (no two handlers overlap). *)
Fixpoint serve (requests : list Notification) : M W (list Response) :=
  match requests with
  | [] => ret []
  | notification :: rest =>
      r <- POST_notification notification;;
      rs <- serve rest;;
      ret (r :: rs)
  end.

End Handler.

(** ** Vocabulary of the properties *)

(** The metadata of a notification as the email route decodes it, when
    [json.Unmarshal] returns no error. *)
Definition decodeEmail (notification : Notification) : option EmailMetadata :=
  match Json.Unmarshal notification.(Notification.Metadata) zeroEmailMetadata with
  | (emailMetadata, None) => Some emailMetadata
  | (_, Some _) => None
  end.

(** A valid email+batch notification, by its event key and decoded metadata. *)
Definition batched (notification : Notification) : option (string * EmailMetadata) :=
  if decide (notification.(Notification.DeliveryRoute) = Email) then
    if decide (notification.(Notification.NotificationType) = Batch) then
      match decodeEmail notification with
      | Some emailMetadata => Some (notification.(Notification.EventName), emailMetadata)
      | None => None
      end
    else None
  else None.

(** The bodies of a batch in arrival order, each followed by a line feed. *)
Fixpoint mergedBody (batch : list EmailMetadata) : string :=
  match batch with
  | [] => ""
  | email :: rest => EmailBody email +:+ LF +:+ mergedBody rest
  end.

(** The elements a list of keyed arrivals brings to the queue of [key]. *)
Fixpoint arrivals (key : string) (keyed : list (string * EmailMetadata)) : list EmailMetadata :=
  match keyed with
  | [] => []
  | (k, email) :: rest =>
      if decide (k = key) then email :: arrivals key rest else arrivals key rest
  end.

(** No arrival of a run of keyed arrivals brings a queue to exactly
    [batchAmount] elements. *)
Definition quiet {W : Type} (batchAmount : Z) (st : State W)
    (keyed : list (string * EmailMetadata)) : Prop :=
  forall key j, (1 <= j <= length (arrivals key keyed))%nat ->
    Z.of_nat (length (notificationsMap st !!! key) + j) <> batchAmount.

(** Payloads [json.Unmarshal] accepts for [EmailMetadata]: [null], or an
    object in which every member that selects a field holds a string or
    [null].  Members are not required to be there. *)
Definition storable (item : json) : bool :=
  match item with
  | JString _ | JNull => true
  | _ => false
  end.

Definition parsable (data : RawMessage) : bool :=
  match data with
  | Some JNull => true
  | Some (JObject members) =>
      forallb (fun member : string * json =>
                 match Json.findField member.1 with
                 | Some _ => storable member.2
                 | None => true
                 end) members
  | _ => false
  end.

(** What the two responses with a failure class look like. *)
Definition isBadRequest (r : Response) : bool :=
  match r with
  | JSON code _ _ => (code =? StatusBadRequest)%Z
  | Panic _ => false
  end.

Definition isServerError (r : Response) : bool :=
  match r with
  | JSON code _ _ => (code =? StatusInternalServerError)%Z
  | Panic _ => false
  end.

(** The dispatch of [notification], answered [r], was a flush for [key]
    whose send failed: a valid email+batch notification for [key]
    answered with a 500. *)
Definition failedFlush (key : string) (notification : Notification) (r : Response) : bool :=
  match batched notification with
  | Some (k, _) => bool_decide (k = key) && isServerError r
  | None => false
  end.

(** No dispatch of a run, given with its answers, was a failed flush for [key]. *)
Fixpoint noFailedFlush (key : string) (requests : list Notification) (answers : list Response)
    : bool :=
  match requests, answers with
  | notification :: requests', r :: answers' =>
      negb (failedFlush key notification r) && noFailedFlush key requests' answers'
  | _, _ => true
  end.

(** The answer of the email route after a send that returned [err]. *)
Definition sent (err : option error) : Response :=
  match err with
  | Some _ => JSON StatusInternalServerError "error" "Failed to send email"
  | None => received
  end.

(** The answer of the system route after an insert that returned [err]. *)
Definition inserted (err : option error) : Response :=
  match err with
  | Some _ => JSON StatusInternalServerError "error" "Failed to insert notification"
  | None => received
  end.

(** ** Doubles and sample requests *)

(** A mail transport that follows a script: each call consumes the next
    entry and returns it; past the end of the script every send succeeds. *)
Definition scriptedService : EmailService (list (option error)) :=
  {| SendEmail := fun address body script =>
       match script with
       | [] => (None, [])
       | err :: rest => (err, rest)
       end |}.

Definition refused : option error := Some (errorString "connection refused").

Definition emailShape (address body : string) : RawMessage :=
  Some (JObject [("emailAddress", JString address); ("emailBody", JString body)]).

Definition systemShape (uuid body : string) : RawMessage :=
  Some (JObject [("uuid", JString uuid); ("body", JString body)]).

Definition request (eventName : string) (route : DeliveryRoute) (type : NotificationType)
    (metadata : RawMessage) : Notification :=
  {| Notification.Date := "2024-05-01T10:00:00Z";
     Notification.EventName := eventName;
     Notification.DeliveryRoute := route;
     Notification.NotificationType := type;
     Notification.Metadata := metadata |}.

Definition hi : EmailMetadata := {| EmailAddress := "a@x.com"; EmailBody := "hi" |}.
Definition bye : EmailMetadata := {| EmailAddress := "b@x.com"; EmailBody := "bye" |}.
Definition now : EmailMetadata := {| EmailAddress := "c@x.com"; EmailBody := "now" |}.

Definition promoHi : Notification := request "promo" Email Batch (emailShape "a@x.com" "hi").
Definition promoBye : Notification := request "promo" Email Batch (emailShape "b@x.com" "bye").
Definition saleNow : Notification := request "sale" Email Batch (emailShape "c@x.com" "now").
Definition welcome : Notification := request "welcome" Email Instant (emailShape "a@x.com" "hello").
Definition weekly : Notification := request "digest" Email "weekly" (emailShape "a@x.com" "hi").
Definition bodyless : Notification :=
  request "welcome" Email Instant (Some (JObject [("emailAddress", JString "a@x.com")])).
Definition garbled : Notification := request "welcome" Email Instant (Some (JArray [])).
Definition misfiled : Notification := request "audit" System Instant (emailShape "a@x.com" "hi").
Definition audit : Notification := request "audit" System Batch (systemShape "u-1" "logged in").
Definition sms : Notification := request "promo" "sms" Instant (emailShape "a@x.com" "hi").

(** The process right after start-up: no queue yet, nothing called. *)
Definition boot {W : Type} (w : W) : State W := mkState ∅ w [].

(** ** The other endpoints, the router and start-up *)

(** What any endpoint answers: a [gin.H] object as before, or, from
    GET /notifications, the list of notifications itself. *)
Inductive Reply : Type :=
  | Answer (r : Response)
  | Listing (code : Z) (notifications : list Notification).

(** A request as the router sees it.  For POST /notification the body is
    given as [ShouldBindJSON] leaves it: the message of its error, or the
    bound envelope. *)
Inductive Request : Type :=
  | POSTNotification (bound : string + Notification)
  | GETNotifications
  | DELETENotification (id : string)
  | PUTNotificationRead (id : string).

Section Server.

Context {W : Type}.
Variable emailService : EmailService W.
Variable notificationRepo : NotificationRepository W.
Variable batchAmount : Z.

(** [notificationRepo.GetAll()], [notificationRepo.Remove(id)] and
    [notificationRepo.MarkAsRead(id)]: they run against the world; [calls]
    keeps recording the sends and inserts only. *)
Definition getAll : M W (list Notification * option error) :=
  fun st =>
    let (result, w) := GetAll notificationRepo (world st) in
    (result, mkState (notificationsMap st) w (calls st)).

Definition remove (id : string) : M W (option error) :=
  fun st =>
    let (err, w) := Remove notificationRepo id (world st) in
    (err, mkState (notificationsMap st) w (calls st)).

Definition markAsRead (id : string) : M W (option error) :=
  fun st =>
    let (err, w) := MarkAsRead notificationRepo id (world st) in
    (err, mkState (notificationsMap st) w (calls st)).

(** The closure of POST /notification from its first line: line 67-71,
    then [POST_notification]. *)
Definition POST_notification_body (bound : string + Notification) : M W Reply :=
  match bound with
  | inl msg => ret (Answer (JSON StatusBadRequest "error" msg))
  | inr notification =>
      r <- POST_notification emailService notificationRepo batchAmount notification;;
      ret (Answer r)
  end.

(** The closure of GET /notifications: line 123-130. *)
Definition GET_notifications : M W Reply :=
  result <- getAll;;
  match result.2 with
  | Some _ =>
      ret (Answer (JSON StatusInternalServerError "error" "Failed to get notifications"))
  | None => ret (Listing StatusOK result.1)
  end.

(** The closure of DELETE /notifications/:id: line 132-140. *)
Definition DELETE_notification (id : string) : M W Reply :=
  err <- remove id;;
  match err with
  | Some _ =>
      ret (Answer (JSON StatusInternalServerError "error" "Failed to remove notification"))
  | None => ret (Answer (JSON StatusOK "message" "Notification removed"))
  end.

(** The closure of PUT /notifications/:id/read: line 142-150. *)
Definition PUT_notification_read (id : string) : M W Reply :=
  err <- markAsRead id;;
  match err with
  | Some _ =>
      ret (Answer (JSON StatusInternalServerError "error" "Failed to mark notification as read"))
  | None => ret (Answer (JSON StatusOK "message" "Notification marked as read"))
  end.

(** The four routes registered on [r]. *)
Definition route (request : Request) : M W Reply :=
  match request with
  | POSTNotification bound => POST_notification_body bound
  | GETNotifications => GET_notifications
  | DELETENotification id => DELETE_notification id
  | PUTNotificationRead id => PUT_notification_read id
  end.

(** Requests of any kind served one after the other. *)
Fixpoint serveRequests (requests : list Request) : M W (list Reply) :=
  match requests with
  | [] => ret []
  | request :: rest =>
      r <- route request;;
      rs <- serveRequests rest;;
      ret (r :: rs)
  end.

End Server.

(** The switch on [os.Getenv("EMAIL_PROTOCOL")] of [main], line 53-60:
    [None] is [log.Fatal], the process ends before any route is served. *)
Definition selectEmailService {W : Type} (EMAIL_PROTOCOL : string) : option (EmailService W) :=
  if decide (EMAIL_PROTOCOL = "SMTP") then Some SMTPService
  else if decide (EMAIL_PROTOCOL = "OTHER") then Some OtherProtocolService
  else None.

(** *** Vocabulary for the whole server *)

Definition replyCode (r : Reply) : option Z :=
  match r with
  | Answer (JSON code _ _) => Some code
  | Answer (Panic _) => None
  | Listing code _ => Some code
  end.

(** The five answers [POST_notification] can give. *)
Definition answers : list Response :=
  [ received;
    JSON StatusBadRequest "error" "Invalid email metadata";
    JSON StatusBadRequest "error" "Invalid notification type";
    JSON StatusInternalServerError "error" "Failed to send email";
    JSON StatusInternalServerError "error" "Failed to insert notification" ].

(** The request is a valid email+batch notification for [key]. *)
Definition forKey (key : string) (request : Request) : bool :=
  match request with
  | POSTNotification (inr notification) =>
      match batched notification with
      | Some (k, _) => bool_decide (k = key)
      | None => false
      end
  | _ => false
  end.

(** The request reaches the dispatch of [POST_notification]. *)
Definition isDispatch (request : Request) : bool :=
  match request with
  | POSTNotification (inr _) => true
  | _ => false
  end.


(** The outcome of a send does not depend on the state of the world. *)
Definition worldBlind {W : Type} (emailService : EmailService W) : Prop :=
  forall address body w w',
    (SendEmail emailService address body w).1 = (SendEmail emailService address body w').1.

(** The bodies of the mails a record of calls sent, one after the other. *)
Fixpoint sentBodies (cs : list Call) : string :=
  match cs with
  | [] => ""
  | CallSendEmail _ body :: rest => body +:+ sentBodies rest
  | CallInsert _ :: rest => sentBodies rest
  end.

(** A store that is down. *)
Definition downRepository {W : Type} : NotificationRepository W :=
  {| GetAll := fun w => (([], Some (errorString "database is down")), w);
     Remove := fun id w => (Some (errorString "database is down"), w);
     MarkAsRead := fun id w => (Some (errorString "database is down"), w);
     Insert := fun item w => (Some (errorString "database is down"), w) |}.

(** *** The branches of POST /notification *)

Section Branches.

Context {W : Type}.
Variable emailService : EmailService W.
Variable notificationRepo : NotificationRepository W.
Variable batchAmount : Z.

Abbreviation POST := (POST_notification emailService notificationRepo batchAmount).

(** The branch a notification takes, each with its step equation. *)
Inductive Branch (notification : Notification) (st : State W) : Prop :=
  | Undecodable :
      POST notification st = (JSON StatusBadRequest "error" "Invalid email metadata", st) ->
      Branch notification st
  | UnknownRoute :
      POST notification st = (JSON StatusBadRequest "error" "Invalid notification type", st) ->
      Branch notification st
  | UnknownType :
      batched notification = None ->
      POST notification st = (received, st) ->
      Branch notification st
  | InstantEmail (address body : string) :
      batched notification = None ->
      POST notification st =
        (let (err, w) := SendEmail emailService address body (world st) in
         (sent err, mkState (notificationsMap st) w (calls st ++ [CallSendEmail address body]))) ->
      Branch notification st
  | SystemStore :
      batched notification = None ->
      POST notification st =
        (let (err, w) := Insert notificationRepo notification (world st) in
         (inserted err,
          mkState (notificationsMap st) w (calls st ++ [CallInsert notification]))) ->
      Branch notification st
  | Accumulate (key : string) (emailMetadata : EmailMetadata) :
      batched notification = Some (key, emailMetadata) ->
      Z.of_nat (length (notificationsMap st !!! key ++ [emailMetadata])) <> batchAmount ->
      POST notification st =
        (received,
         mkState (<[key := notificationsMap st !!! key ++ [emailMetadata]]> (notificationsMap st))
           (world st) (calls st)) ->
      Branch notification st
  | Flush (key : string) (emailMetadata : EmailMetadata) :
      batched notification = Some (key, emailMetadata) ->
      Z.of_nat (length (notificationsMap st !!! key ++ [emailMetadata])) = batchAmount ->
      POST notification st =
        (let queue := notificationsMap st !!! key ++ [emailMetadata] in
         let address := EmailAddress (hd emailMetadata queue) in
         let (err, w) := SendEmail emailService address (mergedBody queue) (world st) in
         (sent err,
          mkState (match err with
                   | Some _ => <[key := queue]> (notificationsMap st)
                   | None => <[key := []]> (notificationsMap st)
                   end) w
            (calls st ++ [CallSendEmail address (mergedBody queue)]))) ->
      Branch notification st.

End Branches.

(** The notification with another metadata payload. *)
Definition withMetadata (notification : Notification) (metadata : RawMessage) : Notification :=
  {| Notification.Date := notification.(Notification.Date);
     Notification.EventName := notification.(Notification.EventName);
     Notification.DeliveryRoute := notification.(Notification.DeliveryRoute);
     Notification.NotificationType := notification.(Notification.NotificationType);
     Notification.Metadata := metadata |}.

(** The member's key selects a field of [EmailMetadata]. *)
Definition known (member : string * json) : bool :=
  match Json.findField member.1 with
  | Some _ => true
  | None => false
  end.

Definition noisy : list (string * json) :=
  [ ("emailAddress", JString "a@x.com"); ("cc", JString "b@x.com");
    ("emailBody", JString "hi"); ("priority", JNumber "3") ].

(** Mixed traffic on the four routes. *)
Definition traffic : list Request :=
  [ POSTNotification (inr promoHi); GETNotifications; POSTNotification (inr saleNow);
    DELETENotification "u-1"; POSTNotification (inr audit); POSTNotification (inr promoBye);
    PUTNotificationRead "u-1"; POSTNotification (inl "unexpected EOF");
    POSTNotification (inr promoHi) ].

(** ** Step equations of the handler *)

Section Steps.

Context {W : Type}.
Variable emailService : EmailService W.
Variable notificationRepo : NotificationRepository W.
Variable batchAmount : Z.

Abbreviation POST := (POST_notification emailService notificationRepo batchAmount).

Lemma decodeEmail_Some notification emailMetadata :
  decodeEmail notification = Some emailMetadata ->
  Json.Unmarshal notification.(Notification.Metadata) zeroEmailMetadata = (emailMetadata, None).
Proof.
  unfold decodeEmail.
  destruct (Json.Unmarshal _ _) as [v [e|]]; intros H; by simplify_eq.
Qed.

Lemma decodeEmail_None notification :
  decodeEmail notification = None ->
  exists v e, Json.Unmarshal notification.(Notification.Metadata) zeroEmailMetadata = (v, Some e).
Proof.
  unfold decodeEmail.
  destruct (Json.Unmarshal _ _) as [v [e|]]; intros H; [eauto | done].
Qed.

Lemma batched_Some notification key emailMetadata :
  batched notification = Some (key, emailMetadata) ->
  notification.(Notification.DeliveryRoute) = Email /\
  notification.(Notification.NotificationType) = Batch /\
  notification.(Notification.EventName) = key /\
  decodeEmail notification = Some emailMetadata.
Proof.
  unfold batched. repeat case_decide; try done.
  destruct (decodeEmail notification); intros; by simplify_eq.
Qed.

(** Email route, metadata that does not decode: line 76-79. *)
Lemma POST_email_undecodable notification st :
  notification.(Notification.DeliveryRoute) = Email ->
  decodeEmail notification = None ->
  POST notification st = (JSON StatusBadRequest "error" "Invalid email metadata", st).
Proof.
  intros Hroute Hdec. apply decodeEmail_None in Hdec as (v & e & Hdec).
  unfold POST_notification. rewrite decide_True by done. by rewrite Hdec.
Qed.

(** Email route, instant: line 82-86. *)
Lemma POST_instant notification emailMetadata st :
  notification.(Notification.DeliveryRoute) = Email ->
  notification.(Notification.NotificationType) = Instant ->
  decodeEmail notification = Some emailMetadata ->
  POST notification st =
    let (err, w) := SendEmail emailService emailMetadata.(EmailAddress)
                      emailMetadata.(EmailBody) (world st) in
    (sent err,
     mkState (notificationsMap st) w
       (calls st ++ [CallSendEmail emailMetadata.(EmailAddress) emailMetadata.(EmailBody)])).
Proof.
  intros Hroute Htype Hdec%decodeEmail_Some.
  unfold POST_notification. rewrite decide_True by done. rewrite Hdec.
  rewrite decide_True by done. unfold bind, sendEmail.
  destruct (SendEmail _ _ _ _) as [[e|] w]; done.
Qed.

(** Email route, batch: line 87-107.  [queue] is the queue of the key
    with the new element appended. *)
Lemma POST_batch notification emailMetadata (st : State W) :
  notification.(Notification.DeliveryRoute) = Email ->
  notification.(Notification.NotificationType) = Batch ->
  decodeEmail notification = Some emailMetadata ->
  let key := notification.(Notification.EventName) in
  let queue := (notificationsMap st !!! key ++ [emailMetadata]) in
  POST notification st =
    if (Z.of_nat (length queue) =? batchAmount)%Z then
      let address := EmailAddress (hd emailMetadata queue) in
      let (err, w) := SendEmail emailService address (joinBodies queue) (world st) in
      (sent err,
       mkState (match err with
                | Some _ => <[key := queue]> (notificationsMap st)
                | None => <[key := []]> (notificationsMap st)
                end) w
         (calls st ++ [CallSendEmail address (joinBodies queue)]))
    else (received, mkState (<[key := queue]> (notificationsMap st)) (world st) (calls st)).
Proof.
  intros Hroute Htype Hdec%decodeEmail_Some key queue.
  unfold POST_notification. rewrite decide_True by done. rewrite Hdec, Htype.
  rewrite decide_False by done. rewrite decide_True by done.
  unfold bind, index, assign; cbn [notificationsMap world calls].
  rewrite lookup_total_insert_eq. fold key. fold queue.
  destruct (Z.of_nat (length queue) =? batchAmount)%Z; [|done].
  destruct queue as [|first queue'] eqn:Hqueue.
  { subst queue. by destruct (notificationsMap st !!! key). }
  unfold sendEmail; cbn [notificationsMap world calls hd].
  destruct (SendEmail _ _ _ _) as [[e|] w]; [done|].
  cbn [notificationsMap world calls]. by rewrite insert_insert_eq.
Qed.

(** Email route, a type that is neither instant nor batch: the inner
    switch has no case for it and control reaches line 120. *)
Lemma POST_email_other notification emailMetadata st :
  notification.(Notification.DeliveryRoute) = Email ->
  notification.(Notification.NotificationType) <> Instant ->
  notification.(Notification.NotificationType) <> Batch ->
  decodeEmail notification = Some emailMetadata ->
  POST notification st = (received, st).
Proof.
  intros Hroute Hi Hb Hdec%decodeEmail_Some.
  unfold POST_notification. rewrite decide_True by done. rewrite Hdec.
  by rewrite !decide_False by done.
Qed.

(** System route: line 109-114. *)
Lemma POST_system notification st :
  notification.(Notification.DeliveryRoute) = System ->
  POST notification st =
    let (err, w) := Insert notificationRepo notification (world st) in
    (inserted err, mkState (notificationsMap st) w (calls st ++ [CallInsert notification])).
Proof.
  intros Hroute. unfold POST_notification. rewrite Hroute.
  rewrite decide_False by done. rewrite decide_True by done.
  unfold bind, insertNotification.
  destruct (Insert _ _ _) as [[e|] w]; done.
Qed.

(** Any other route: line 115-117. *)
Lemma POST_unknown_route notification st :
  notification.(Notification.DeliveryRoute) <> Email ->
  notification.(Notification.DeliveryRoute) <> System ->
  POST notification st = (JSON StatusBadRequest "error" "Invalid notification type", st).
Proof.
  intros He Hs. unfold POST_notification. by rewrite !decide_False by done.
Qed.

End Steps.

(** ** Strings and merged bodies *)

Lemma append_assoc (s1 s2 s3 : string) : (s1 +:+ s2) +:+ s3 = s1 +:+ (s2 +:+ s3).
Proof.
  induction s1 as [|a s1 IH]; [done|].
  change (String a ((s1 +:+ s2) +:+ s3) = String a (s1 +:+ (s2 +:+ s3))).
  by rewrite IH.
Qed.

Lemma append_empty_r (s : string) : s +:+ "" = s.
Proof.
  induction s as [|a s IH]; [done|].
  change (String a (s +:+ "") = String a s). by rewrite IH.
Qed.

Lemma fold_bodies (queue : list EmailMetadata) (emailBody : string) :
  fold_left (fun emailBody email => emailBody +:+ (EmailBody email +:+ LF)) queue emailBody
  = emailBody +:+ mergedBody queue.
Proof.
  revert emailBody. induction queue as [|email queue IH]; intros emailBody; cbn [fold_left mergedBody].
  - by rewrite append_empty_r.
  - by rewrite IH, !append_assoc.
Qed.

(** The loop of the handler computes the merged body. *)
Lemma joinBodies_mergedBody (queue : list EmailMetadata) : joinBodies queue = mergedBody queue.
Proof. unfold joinBodies. by rewrite fold_bodies. Qed.

Lemma arrivals_same key (batch : list EmailMetadata) :
  arrivals key (pair key <$> batch) = batch.
Proof.
  induction batch as [|email batch IH]; [done|].
  cbn. rewrite decide_True by done. by rewrite IH.
Qed.

Lemma arrivals_other key key' (batch : list EmailMetadata) :
  key <> key' -> arrivals key' (pair key <$> batch) = [].
Proof.
  intros Hne. induction batch as [|email batch IH]; [done|].
  cbn. by rewrite decide_False by done.
Qed.

Lemma hd_head {A : Type} (d x : A) (l : list A) : head l = Some x -> hd d l = x.
Proof. destruct l; cbn; intros H; by simplify_eq. Qed.

(** ** Runs of the handler *)

Section Runs.

Context {W : Type}.
Variable emailService : EmailService W.
Variable notificationRepo : NotificationRepository W.
Variable batchAmount : Z.

Abbreviation POST := (POST_notification emailService notificationRepo batchAmount).
Abbreviation run := (serve emailService notificationRepo batchAmount).

Lemma serve_cons (notification : Notification) (rest : list Notification) (st : State W) :
  run (notification :: rest) st =
    let (r, st1) := POST notification st in
    let (rs, st2) := run rest st1 in
    (r :: rs, st2).
Proof.
  cbn [serve]. unfold bind, ret.
  destruct (POST notification st) as [r st1]. by destruct (run rest st1).
Qed.

Lemma serve_app (requests1 requests2 : list Notification) (st : State W) :
  run (requests1 ++ requests2) st =
    let (rs1, st1) := run requests1 st in
    let (rs2, st2) := run requests2 st1 in
    (rs1 ++ rs2, st2).
Proof.
  revert st. induction requests1 as [|n requests1 IH]; intros st.
  - cbn. unfold ret. by destruct (run requests2 st).
  - rewrite <- app_comm_cons, !serve_cons.
    destruct (POST n st) as [r st0]. rewrite IH.
    destruct (run requests1 st0) as [rs1 st1].
    by destruct (run requests2 st1) as [rs2 st2].
Qed.

Lemma serve_one (notification : Notification) (st : State W) :
  run [notification] st = let (r, st') := POST notification st in ([r], st').
Proof. rewrite serve_cons. by destruct (POST notification st). Qed.

(** A run of valid email+batch requests that never meets the threshold
    only appends: every answer is [received], no collaborator is called,
    and each queue grows by its arrivals, in order. *)
Lemma serve_accumulates (requests : list Notification) keyed (st : State W) :
  mapM batched requests = Some keyed ->
  quiet batchAmount st keyed ->
  exists m,
    run requests st = (replicate (length requests) received, mkState m (world st) (calls st))
    /\ forall key, m !!! key = notificationsMap st !!! key ++ arrivals key keyed.
Proof.
  intros Hreq%mapM_Some. revert st.
  induction Hreq as [|n [k email] requests keyed Hn _ IH]; intros st Hquiet.
  - exists (notificationsMap st). split; [by destruct st|].
    intros key. cbn. by rewrite app_nil_r.
  - apply batched_Some in Hn as (Hroute & Htype & Hkey & Hdec).
    pose proof (POST_batch emailService notificationRepo batchAmount n email st
                  Hroute Htype Hdec) as Hstep.
    cbn zeta in Hstep. rewrite Hkey in Hstep.
    rewrite (proj2 (Z.eqb_neq _ _)) in Hstep.
    2:{ rewrite length_app, Nat.add_comm. cbn [length]. rewrite Nat.add_comm. apply Hquiet.
        cbn. rewrite decide_True by done. cbn. lia. }
    set (st1 := mkState (<[k := (notificationsMap st !!! k ++ [email])]> (notificationsMap st))
                  (world st) (calls st)) in *.
    destruct (IH st1) as (m & Hrun & Hm).
    { intros key j Hj. subst st1. cbn [notificationsMap].
      destruct (decide (k = key)) as [->|Hne].
      - rewrite lookup_total_insert_eq, length_app. cbn [length].
        replace (length (notificationsMap st !!! key) + 1 + j)%nat
          with (length (notificationsMap st !!! key) + S j)%nat by lia.
        apply Hquiet. cbn. rewrite decide_True by done. cbn. lia.
      - rewrite lookup_total_insert_ne by done.
        apply Hquiet. cbn. by rewrite decide_False by done. }
    exists m. split.
    + rewrite serve_cons, Hstep, Hrun. done.
    + intros key. rewrite Hm. subst st1. cbn [notificationsMap arrivals].
      destruct (decide (k = key)) as [->|Hne].
      * by rewrite lookup_total_insert_eq, <- app_assoc.
      * by rewrite lookup_total_insert_ne.
Qed.

End Runs.

(** ** Batched email: accumulate, then flush *)

Section Batching.

Context {W : Type}.
Variable emailService : EmailService W.
Variable notificationRepo : NotificationRepository W.
Variable batchAmount : Z.

Abbreviation POST := (POST_notification emailService notificationRepo batchAmount).
Abbreviation run := (serve emailService notificationRepo batchAmount).

(** C1.  Starting from an empty queue for [key], a run of N =
    batchAmount >= 1 valid email+batch notifications for [key] behaves as
    follows.  The first N-1 are each answered [received] (HTTP 200)
    without any collaborator call, and leave the first N-1 decoded
    metadata queued in arrival order.  The whole run makes exactly one
    collaborator call: SendEmail, addressed to the first (oldest) element
    of the batch, with the bodies of all N elements in arrival order,
    each followed by a line feed; the Nth answer is [received] when that
    send succeeds (the queue is then empty) and a 500 when it fails. *)
Theorem nth_batched_email_flushes_once
    (key : string) (requests : list Notification) (batch : list EmailMetadata)
    (first : EmailMetadata) (st : State W) :
  1 <= batchAmount ->
  Z.of_nat (length requests) = batchAmount ->
  mapM batched requests = Some (pair key <$> batch) ->
  notificationsMap st !!! key = [] ->
  head batch = Some first ->
  let earlier := take (length requests - 1) requests in
  let address := first.(EmailAddress) in
  let body := mergedBody batch in
  ((run earlier st).1 = replicate (length requests - 1) received
   /\ calls (run earlier st).2 = calls st
   /\ world (run earlier st).2 = world st
   /\ notificationsMap (run earlier st).2 !!! key = take (length requests - 1) batch)
  /\ let (err, w) := SendEmail emailService address body (world st) in
     (run requests st).1 = replicate (length requests - 1) received ++ [sent err]
     /\ calls (run requests st).2 = calls st ++ [CallSendEmail address body]
     /\ world (run requests st).2 = w
     /\ (err = None -> notificationsMap (run requests st).2 !!! key = []).
Proof.
  intros HN Hlen Hreq Hempty Hfirst earlier address body.
  destruct requests as [|last front _] using rev_ind; [cbn in Hlen; lia|].
  apply mapM_Some, Forall2_app_inv_l in Hreq as (k1 & k2 & Hfront & Hlast & Hsplit).
  apply fmap_app_inv in Hsplit as (older & newest & -> & -> & ->).
  apply Forall2_cons_inv_l in Hlast as (kn & k2' & Hlast & Hnil & Hk2).
  apply Forall2_nil_inv_l in Hnil as ->.
  destruct newest as [|newest [|? ?]]; try discriminate Hk2. injection Hk2 as <-.
  assert (length front = length older) as Hsame.
  { apply Forall2_length in Hfront. by rewrite length_fmap in Hfront. }
  assert (length (front ++ [last]) - 1 = length front)%nat as Hpred.
  { rewrite length_app. cbn. lia. }
  subst earlier. rewrite Hpred in *. rewrite take_app_length.
  rewrite Hsame at 2. rewrite take_app_length.
  destruct (serve_accumulates emailService notificationRepo batchAmount
              front (pair key <$> older) st) as (m & Hrun & Hm).
  { by apply mapM_Some. }
  { intros key' j Hj. destruct (decide (key = key')) as [<-|Hne].
    - rewrite arrivals_same in Hj. rewrite Hempty. cbn [length].
      rewrite length_app in Hlen. cbn in Hlen. lia.
    - rewrite arrivals_other in Hj by done. cbn in Hj. lia. }
  assert (m !!! key = older) as Hqueue.
  { by rewrite Hm, Hempty, arrivals_same. }
  rewrite Hrun. cbn [fst snd calls world notificationsMap]. split; [done|].
  rewrite serve_app, Hrun, serve_one.
  apply batched_Some in Hlast as (Hroute & Htype & Hkey & Hdec).
  rewrite (POST_batch emailService notificationRepo batchAmount last newest _ Hroute Htype Hdec).
  cbn zeta. cbn [notificationsMap world calls]. rewrite Hkey, Hqueue.
  rewrite (proj2 (Z.eqb_eq _ _)).
  2:{ rewrite length_app in *. cbn in *. lia. }
  rewrite (hd_head _ first) by done. rewrite joinBodies_mergedBody.
  fold address. fold body.
  destruct (SendEmail emailService address body (world st)) as [[e|] w];
    cbn [fst snd calls world notificationsMap]; repeat split; try done.
  intros _. by rewrite lookup_total_insert_eq.
Qed.

End Batching.

(** ** The decoder accepts exactly the parsable payloads *)

Lemma value_error (f : Json.field) (item : json) (d : Json.decodeState) :
  (Json.value f item d).2 = None <-> d.2 = None /\ storable item = true.
Proof.
  destruct d as [v [e|]], item; cbn; split; try done; by intros [? ?].
Qed.

Lemma object_error (members : list (string * json)) (d : Json.decodeState) :
  (Json.object members d).2 = None <->
  d.2 = None /\
  forallb (fun member : string * json =>
             match Json.findField member.1 with
             | Some _ => storable member.2
             | None => true
             end) members = true.
Proof.
  revert d. induction members as [|[key item] members IH]; intros d.
  - cbn. by intuition.
  - cbn [Json.object forallb fst snd]. destruct (Json.findField key) as [f|].
    + rewrite IH, value_error, andb_true_iff. by intuition.
    + rewrite IH. cbn. by intuition.
Qed.

Lemma Unmarshal_error (data : RawMessage) (v : EmailMetadata) :
  (Json.Unmarshal data v).2 = None <-> parsable data = true.
Proof.
  destruct data as [[]|]; cbn; try done.
  rewrite object_error. cbn. by intuition.
Qed.

Lemma decodeEmail_parsable (notification : Notification) :
  is_Some (decodeEmail notification) <-> parsable notification.(Notification.Metadata) = true.
Proof.
  rewrite <- (Unmarshal_error _ zeroEmailMetadata). unfold decodeEmail.
  destruct (Json.Unmarshal _ _) as [v [e|]]; cbn; split; try done; try by eauto.
Qed.

(** ** One dispatch *)

Section Dispatch.

Context {W : Type}.
Variable emailService : EmailService W.
Variable notificationRepo : NotificationRepository W.
Variable batchAmount : Z.

Abbreviation POST := (POST_notification emailService notificationRepo batchAmount).

(** A dispatch that is not a valid email+batch one leaves the batch map
    as it was. *)
Lemma not_batched_keeps_map (notification : Notification) (st : State W) :
  batched notification = None ->
  notificationsMap (POST notification st).2 = notificationsMap st.
Proof.
  intros Hb. unfold batched in Hb.
  destruct (decide (notification.(Notification.DeliveryRoute) = Email)) as [Hroute|Hroute].
  - destruct (decodeEmail notification) as [emailMetadata|] eqn:Hdec.
    + destruct (decide (notification.(Notification.NotificationType) = Batch)) as [Htype|Htype];
        [done|].
      destruct (decide (notification.(Notification.NotificationType) = Instant)) as [Hi|Hi].
      * rewrite (POST_instant _ _ _ _ emailMetadata) by done.
        by destruct (SendEmail _ _ _ _).
      * by rewrite (POST_email_other _ _ _ _ emailMetadata).
    + by rewrite POST_email_undecodable.
  - destruct (decide (notification.(Notification.DeliveryRoute) = System)) as [Hs|Hs].
    + rewrite POST_system by done. by destruct (Insert _ _ _).
    + by rewrite POST_unknown_route.
Qed.

(** A valid email+batch dispatch writes the queue of its own key, and
    nothing else; it is never answered with a 400. *)
Lemma batched_writes_own_key (notification : Notification) key emailMetadata (st : State W) :
  batched notification = Some (key, emailMetadata) ->
  isBadRequest (POST notification st).1 = false /\
  exists queue,
    notificationsMap (POST notification st).2 = <[key := queue]> (notificationsMap st).
Proof.
  intros (Hroute & Htype & Hkey & Hdec)%batched_Some.
  rewrite (POST_batch _ _ _ _ emailMetadata) by done. cbn zeta. rewrite Hkey.
  destruct (Z.of_nat _ =? batchAmount); [|by eauto].
  destruct (SendEmail _ _ _ _) as [[e|] w]; by eauto.
Qed.

(** C7.  A valid email+instant notification makes exactly one
    collaborator call, SendEmail with the decoded address and body, and
    touches nothing else; it is answered [received] (HTTP 200) exactly
    when the send returns no error, and 500 "Failed to send email"
    exactly when it returns one. *)
Theorem instant_email_sends_once
    (notification : Notification) (emailMetadata : EmailMetadata) (st : State W) :
  notification.(Notification.DeliveryRoute) = Email ->
  notification.(Notification.NotificationType) = Instant ->
  decodeEmail notification = Some emailMetadata ->
  let address := emailMetadata.(EmailAddress) in
  let body := emailMetadata.(EmailBody) in
  let (err, w) := SendEmail emailService address body (world st) in
  POST notification st =
    (sent err, mkState (notificationsMap st) w (calls st ++ [CallSendEmail address body]))
  /\ ((POST notification st).1 = received <-> err = None)
  /\ ((POST notification st).1 =
        JSON StatusInternalServerError "error" "Failed to send email" <-> err <> None).
Proof.
  intros Hroute Htype Hdec address body.
  rewrite (POST_instant _ _ _ _ emailMetadata) by done.
  fold address. fold body.
  destruct (SendEmail emailService address body (world st)) as [[e|] w]; cbn;
    repeat split; done.
Qed.

(** C8.  A notification on the system route, whatever its
    notificationType and metadata, makes exactly one collaborator call,
    Insert with the notification record itself, and leaves the batch map
    alone; it is answered [received] (HTTP 200) exactly when Insert
    returns no error and 500 "Failed to insert notification" exactly
    when it returns one. *)
Theorem system_notification_is_inserted (notification : Notification) (st : State W) :
  notification.(Notification.DeliveryRoute) = System ->
  let (err, w) := Insert notificationRepo notification (world st) in
  POST notification st =
    (inserted err, mkState (notificationsMap st) w (calls st ++ [CallInsert notification]))
  /\ ((POST notification st).1 = received <-> err = None)
  /\ ((POST notification st).1 =
        JSON StatusInternalServerError "error" "Failed to insert notification" <-> err <> None).
Proof.
  intros Hroute. rewrite POST_system by done.
  destruct (Insert notificationRepo notification (world st)) as [[e|] w]; cbn;
    repeat split; done.
Qed.

End Dispatch.

(** ** The threshold *)

Section Threshold.

Context {W : Type}.
Variable emailService : EmailService W.
Variable notificationRepo : NotificationRepository W.
Variable batchAmount : Z.

Abbreviation POST := (POST_notification emailService notificationRepo batchAmount).
Abbreviation run := (serve emailService notificationRepo batchAmount).

(** C9.  With batchAmount <= 0 a run of valid email+batch notifications
    never flushes: every one of them is answered [received] (HTTP 200),
    no collaborator is called, and the queue of every event name is its
    old content followed by all its arrivals, so its length grows by
    one with each of them, without bound. *)
Theorem nonpositive_batchAmount_never_flushes
    (requests : list Notification) (keyed : list (string * EmailMetadata)) (st : State W) :
  batchAmount <= 0 ->
  mapM batched requests = Some keyed ->
  (run requests st).1 = replicate (length requests) received
  /\ calls (run requests st).2 = calls st
  /\ world (run requests st).2 = world st
  /\ forall key,
       notificationsMap (run requests st).2 !!! key
         = notificationsMap st !!! key ++ arrivals key keyed
       /\ length (notificationsMap (run requests st).2 !!! key)
          = (length (notificationsMap st !!! key) + length (arrivals key keyed))%nat.
Proof.
  intros Hle Hreq.
  destruct (serve_accumulates emailService notificationRepo batchAmount requests keyed st Hreq)
    as (m & Hrun & Hm).
  { intros key j Hj. lia. }
  rewrite Hrun. cbn. repeat split; try done.
  by rewrite Hm, length_app.
Qed.

(** C2, as the code has it.  When the send of a flush returns an error
    the dispatch is answered 500 "Failed to send email", having called
    SendEmail once, and the handler returns before the statement that
    clears the queue: the queue of the event name still holds all
    batchAmount elements, the triggering one included. *)
Theorem failed_flush_keeps_the_batch
    (notification : Notification) (emailMetadata : EmailMetadata) (st : State W)
    (e : error) (w : W) :
  notification.(Notification.DeliveryRoute) = Email ->
  notification.(Notification.NotificationType) = Batch ->
  decodeEmail notification = Some emailMetadata ->
  let key := notification.(Notification.EventName) in
  let queue := notificationsMap st !!! key ++ [emailMetadata] in
  let address := EmailAddress (hd emailMetadata queue) in
  Z.of_nat (length queue) = batchAmount ->
  SendEmail emailService address (mergedBody queue) (world st) = (Some e, w) ->
  (POST notification st).1 = JSON StatusInternalServerError "error" "Failed to send email"
  /\ calls (POST notification st).2 = calls st ++ [CallSendEmail address (mergedBody queue)]
  /\ notificationsMap (POST notification st).2 !!! key = queue
  /\ forall other, other <> key ->
       notificationsMap (POST notification st).2 !! other = notificationsMap st !! other.
Proof.
  intros Hroute Htype Hdec key queue address Hfull Hsend.
  rewrite (POST_batch _ _ _ _ emailMetadata) by done. cbn zeta.
  fold key. fold queue. fold address.
  rewrite (proj2 (Z.eqb_eq _ _)) by done.
  rewrite joinBodies_mergedBody, Hsend. cbn.
  repeat split; try done.
  - by rewrite lookup_total_insert_eq.
  - intros other Hother. by rewrite lookup_insert_ne.
Qed.

(** A dispatch that is not a failed flush for [key] keeps the queue of
    [key] below the threshold. *)
Lemma step_below_threshold (key : string) (notification : Notification) (st : State W) :
  1 <= batchAmount ->
  Z.of_nat (length (notificationsMap st !!! key)) <= batchAmount - 1 ->
  failedFlush key notification (POST notification st).1 = false ->
  Z.of_nat (length (notificationsMap (POST notification st).2 !!! key)) <= batchAmount - 1.
Proof.
  intros HN Hinv. unfold failedFlush.
  destruct (batched notification) as [[k emailMetadata]|] eqn:Hb.
  2:{ intros _. by rewrite not_batched_keeps_map. }
  apply batched_Some in Hb as (Hroute & Htype & Hkey & Hdec).
  rewrite (POST_batch _ _ _ _ emailMetadata) by done. cbn zeta. rewrite Hkey.
  destruct (decide (k = key)) as [->|Hne].
  - rewrite bool_decide_eq_true_2 by done.
    destruct (Z.eqb_spec (Z.of_nat (length (notificationsMap st !!! key ++ [emailMetadata])))
                batchAmount) as [Hfull|Hnot].
    + destruct (SendEmail _ _ _ _) as [[e|] w]; cbn; [done|]. intros _.
      rewrite lookup_total_insert_eq. cbn. lia.
    + cbn. intros _. rewrite lookup_total_insert_eq.
      rewrite length_app in *. cbn in *. lia.
  - intros _. destruct (Z.of_nat _ =? batchAmount).
    + destruct (SendEmail _ _ _ _) as [[e|] w]; cbn; by rewrite lookup_total_insert_ne.
    + cbn. by rewrite lookup_total_insert_ne.
Qed.

Lemma run_below_threshold (key : string) (requests : list Notification) (st : State W) :
  1 <= batchAmount ->
  Z.of_nat (length (notificationsMap st !!! key)) <= batchAmount - 1 ->
  noFailedFlush key requests (run requests st).1 = true ->
  Z.of_nat (length (notificationsMap (run requests st).2 !!! key)) <= batchAmount - 1.
Proof.
  intros HN. revert st.
  induction requests as [|notification requests IH]; intros st Hinv Hrun; [done|].
  rewrite serve_cons in *.
  pose proof (step_below_threshold key notification st HN Hinv) as Hstep.
  destruct (POST notification st) as [r st1]. cbn [fst snd] in Hstep.
  specialize (IH st1).
  destruct (run requests st1) as [rs st2]. cbn [fst snd] in *.
  cbn [noFailedFlush] in Hrun. apply andb_true_iff in Hrun as [Hr Hrs].
  apply negb_true_iff in Hr. by auto.
Qed.

(** C3, as the code has it.  Let batchAmount >= 1.  Along every run of
    dispatches none of which is a flush for the event name whose send
    failed, the queue of that event name, observed between dispatches,
    holds at most batchAmount - 1 elements.  A flush whose send succeeds
    leaves the queue of its key exactly empty.  From an empty queue the
    next valid email+batch notification for the key starts afresh: the
    queue is the one new element when batchAmount is not 1, and when it
    is 1 that element alone is flushed. *)
Theorem queue_stays_below_threshold_unless_flush_fails :
  1 <= batchAmount ->
  (forall (key : string) (requests : list Notification) (st : State W),
     Z.of_nat (length (notificationsMap st !!! key)) <= batchAmount - 1 ->
     noFailedFlush key requests (run requests st).1 = true ->
     Z.of_nat (length (notificationsMap (run requests st).2 !!! key)) <= batchAmount - 1)
  /\ (forall (key : string) (notification : Notification) (emailMetadata : EmailMetadata)
            (st : State W),
        batched notification = Some (key, emailMetadata) ->
        let queue := notificationsMap st !!! key ++ [emailMetadata] in
        Z.of_nat (length queue) = batchAmount ->
        (SendEmail emailService (EmailAddress (hd emailMetadata queue)) (mergedBody queue)
           (world st)).1 = None ->
        (POST notification st).1 = received
        /\ notificationsMap (POST notification st).2 !!! key = [])
  /\ (forall (key : string) (notification : Notification) (emailMetadata : EmailMetadata)
            (st : State W),
        batched notification = Some (key, emailMetadata) ->
        notificationsMap st !!! key = [] ->
        (batchAmount <> 1 ->
         POST notification st =
           (received,
            mkState (<[key := [emailMetadata]]> (notificationsMap st)) (world st) (calls st)))
        /\ (batchAmount = 1 ->
            calls (POST notification st).2 =
              calls st ++ [CallSendEmail emailMetadata.(EmailAddress)
                             (emailMetadata.(EmailBody) +:+ LF)])).
Proof.
  intros HN. split; [|split].
  - intros key requests st. by apply run_below_threshold.
  - intros key notification emailMetadata st (Hroute & Htype & Hkey & Hdec)%batched_Some
      queue Hfull Hsend.
    rewrite (POST_batch _ _ _ _ emailMetadata) by done. cbn zeta. rewrite Hkey.
    fold queue. rewrite (proj2 (Z.eqb_eq _ _)) by done.
    rewrite joinBodies_mergedBody.
    destruct (SendEmail _ _ _ _) as [err w]. cbn in Hsend. subst err. cbn.
    by rewrite lookup_total_insert_eq.
  - intros key notification emailMetadata st (Hroute & Htype & Hkey & Hdec)%batched_Some Hempty.
    rewrite (POST_batch _ _ _ _ emailMetadata) by done. cbn zeta. rewrite Hkey, Hempty.
    cbn [app length hd]. split.
    + intros Hne. rewrite (proj2 (Z.eqb_neq _ _)); [done|]. cbn. lia.
    + intros Hone. rewrite Hone. cbn [Z.of_nat Pos.of_succ_nat Z.eqb Pos.eqb].
      rewrite joinBodies_mergedBody. cbn [mergedBody]. rewrite append_empty_r.
      by destruct (SendEmail _ _ _ _) as [[e|] w].
Qed.

(** C10, as the code has it.  A dispatch changes at most the queue of
    the notification's own event name.  It leaves the whole batch map
    unchanged unless the notification is email+batch, and also whenever
    it is answered with a 400 (metadata that does not decode, a route
    that is not known). *)
Theorem dispatch_touches_own_queue_only (notification : Notification) (st : State W) :
  (forall key, key <> notification.(Notification.EventName) ->
     notificationsMap (POST notification st).2 !! key = notificationsMap st !! key)
  /\ (~ (notification.(Notification.DeliveryRoute) = Email
         /\ notification.(Notification.NotificationType) = Batch) ->
      notificationsMap (POST notification st).2 = notificationsMap st)
  /\ (isBadRequest (POST notification st).1 = true ->
      notificationsMap (POST notification st).2 = notificationsMap st).
Proof.
  destruct (batched notification) as [[k emailMetadata]|] eqn:Hb.
  - destruct (batched_writes_own_key emailService notificationRepo batchAmount
                notification k emailMetadata st Hb) as (Hcode & queue & Hmap).
    apply batched_Some in Hb as (Hroute & Htype & Hkey & Hdec).
    repeat split.
    + intros key Hne. rewrite Hmap, lookup_insert_ne; [done|congruence].
    + intros Hnot. by destruct Hnot.
    + intros Hbad. congruence.
  - pose proof (not_batched_keeps_map emailService notificationRepo batchAmount
                  notification st Hb) as Hmap.
    repeat split; intros; by rewrite Hmap.
Qed.

End Threshold.

(** ** Metadata *)

Section Metadata.

Context {W : Type}.
Variable emailService : EmailService W.
Variable notificationRepo : NotificationRepository W.
Variable batchAmount : Z.

Abbreviation POST := (POST_notification emailService notificationRepo batchAmount).

(** An email notification whose metadata decodes is never answered with a 400. *)
Lemma decodable_email_not_bad_request
    (notification : Notification) (emailMetadata : EmailMetadata) (st : State W) :
  notification.(Notification.DeliveryRoute) = Email ->
  decodeEmail notification = Some emailMetadata ->
  isBadRequest (POST notification st).1 = false.
Proof.
  intros Hroute Hdec.
  destruct (decide (notification.(Notification.NotificationType) = Instant)) as [Hi|Hi].
  { rewrite (POST_instant _ _ _ _ emailMetadata) by done.
    by destruct (SendEmail _ _ _ _) as [[e|] w]. }
  destruct (decide (notification.(Notification.NotificationType) = Batch)) as [Hb|Hb].
  - apply (batched_writes_own_key emailService notificationRepo batchAmount notification
             notification.(Notification.EventName) emailMetadata).
    unfold batched. rewrite !decide_True by done. by rewrite Hdec.
  - by rewrite (POST_email_other _ _ _ _ emailMetadata).
Qed.

(** C6, as the code has it.  On the email route a notification is
    answered 400 "Invalid email metadata" exactly when its metadata is
    not parsable into EmailMetadata (no payload, a payload that is
    neither an object nor null, or a member of a field that holds
    something else than a string or null); the dispatch then calls no
    collaborator and changes no queue.  Absent members are not a decoding
    failure. *)
Theorem unparsable_email_metadata_is_rejected (notification : Notification) (st : State W) :
  notification.(Notification.DeliveryRoute) = Email ->
  ((POST notification st).1 = JSON StatusBadRequest "error" "Invalid email metadata"
   <-> parsable notification.(Notification.Metadata) = false)
  /\ (parsable notification.(Notification.Metadata) = false ->
      POST notification st = (JSON StatusBadRequest "error" "Invalid email metadata", st)).
Proof.
  intros Hroute.
  pose proof (decodeEmail_parsable notification) as Hparse.
  destruct (decodeEmail notification) as [emailMetadata|] eqn:Hdec.
  - assert (parsable notification.(Notification.Metadata) = true) as Hyes
      by (apply Hparse; eauto).
    pose proof (decodable_email_not_bad_request notification emailMetadata st Hroute Hdec)
      as Hcode.
    rewrite Hyes. split; [|done]. split; [|done].
    intros Hr. by rewrite Hr in Hcode.
  - assert (parsable notification.(Notification.Metadata) = false) as Hno.
    { destruct (parsable _); [|done]. destruct Hparse as [_ Hp].
      by destruct (Hp eq_refl). }
    by rewrite POST_email_undecodable.
Qed.

(** C5, as the code has it.  The system route never decodes the
    metadata: a system notification whose metadata has the email shape
    is passed to Insert like any other, exactly once and whole, and is
    answered by the outcome of Insert, never with a 400. *)
Theorem system_route_accepts_email_shaped_metadata
    (notification : Notification) (address body : string) (st : State W) :
  notification.(Notification.DeliveryRoute) = System ->
  notification.(Notification.Metadata) = emailShape address body ->
  let (err, w) := Insert notificationRepo notification (world st) in
  POST notification st =
    (inserted err, mkState (notificationsMap st) w (calls st ++ [CallInsert notification]))
  /\ isBadRequest (POST notification st).1 = false.
Proof.
  intros Hroute _. rewrite POST_system by done.
  by destruct (Insert notificationRepo notification (world st)) as [[e|] w].
Qed.

End Metadata.

(** ** The properties at concrete requests *)

Section Scenarios.

Abbreviation script := (list (option error)).
Abbreviation smtp := (scriptedService : EmailService script).
Abbreviation repo := (NotificationRepositoryImpl : NotificationRepository script).

(** The scenario of the specification: batchAmount = 2, "hi" then "bye"
    for "promo".  One send, to the first address, with both bodies. *)
Lemma promo_batch_of_two :
  (serve smtp repo 2 [promoHi; promoBye] (boot [])).1 = [received; received]
  /\ calls (serve smtp repo 2 [promoHi; promoBye] (boot [])).2
     = [CallSendEmail "a@x.com" ("hi" +:+ LF +:+ "bye" +:+ LF)]
  /\ notificationsMap (serve smtp repo 2 [promoHi] (boot [])).2 !!! "promo" = [hi].
Proof.
  destruct (nth_batched_email_flushes_once smtp repo 2 "promo" [promoHi; promoBye]
              [hi; bye] hi (boot [])) as [Hearlier Hall];
    [lia | reflexivity | reflexivity | reflexivity | reflexivity |].
  destruct Hearlier as (_ & _ & _ & Hqueue).
  destruct Hall as (Hanswers & Hcalls & _).
  exact (conj Hanswers (conj Hcalls Hqueue)).
Defined.

Lemma welcome_mail_is_sent :
  POST_notification smtp repo 2 welcome (boot [])
  = (received, mkState ∅ [] [CallSendEmail "a@x.com" "hello"]).
Proof.
  exact (proj1 (instant_email_sends_once smtp repo 2 welcome
                  {| EmailAddress := "a@x.com"; EmailBody := "hello" |} (boot [])
                  eq_refl eq_refl eq_refl)).
Defined.

Lemma audit_record_is_inserted :
  POST_notification smtp repo 2 audit (boot [])
  = (received, mkState ∅ [] [CallInsert audit]).
Proof.
  exact (proj1 (system_notification_is_inserted smtp repo 2 audit (boot []) eq_refl)).
Defined.

Lemma zero_batchAmount_only_accumulates :
  (serve smtp repo 0 [promoHi; saleNow; promoBye] (boot [])).1 = [received; received; received]
  /\ calls (serve smtp repo 0 [promoHi; saleNow; promoBye] (boot [])).2 = []
  /\ notificationsMap (serve smtp repo 0 [promoHi; saleNow; promoBye] (boot [])).2 !!! "promo"
     = [hi; bye].
Proof.
  destruct (nonpositive_batchAmount_never_flushes smtp repo 0 [promoHi; saleNow; promoBye]
              [("promo", hi); ("sale", now); ("promo", bye)] (boot []))
    as (Hanswers & Hcalls & _ & Hqueues); [lia | reflexivity |].
  exact (conj Hanswers (conj Hcalls (proj1 (Hqueues "promo")))).
Defined.

Lemma refused_flush_keeps_hi_and_bye :
  (POST_notification smtp repo 2 promoBye
     (mkState {["promo" := [hi]]} [refused] [])).1
  = JSON StatusInternalServerError "error" "Failed to send email"
  /\ notificationsMap (POST_notification smtp repo 2 promoBye
                         (mkState {["promo" := [hi]]} [refused] [])).2 !!! "promo"
     = [hi; bye].
Proof.
  destruct (failed_flush_keeps_the_batch smtp repo 2 promoBye bye
              (mkState {["promo" := [hi]]} [refused] [])
              (errorString "connection refused") [])
    as (Hanswer & _ & Hqueue & _); [reflexivity ..|].
  exact (conj Hanswer Hqueue).
Defined.

Lemma garbled_metadata_is_rejected :
  POST_notification smtp repo 2 garbled (boot [])
  = (JSON StatusBadRequest "error" "Invalid email metadata", boot []).
Proof.
  exact (proj2 (unparsable_email_metadata_is_rejected smtp repo 2 garbled (boot []) eq_refl)
           eq_refl).
Defined.

Lemma misfiled_record_reaches_the_store :
  POST_notification smtp repo 2 misfiled (boot [])
  = (received, mkState ∅ [] [CallInsert misfiled]).
Proof.
  exact (proj1 (system_route_accepts_email_shaped_metadata smtp repo 2 misfiled
                  "a@x.com" "hi" (boot []) eq_refl eq_refl)).
Defined.

(** C2, counterexample.  batchAmount = 2 and a transport that refuses
    the flush: the second dispatch is answered 500 and the queue of
    "promo" is not empty afterwards. *)
Lemma refused_flush_leaves_queue_nonempty :
  (serve smtp repo 2 [promoHi; promoBye] (boot [refused])).1
  = [received; JSON StatusInternalServerError "error" "Failed to send email"]
  /\ notificationsMap (serve smtp repo 2 [promoHi; promoBye] (boot [refused])).2 !!! "promo"
     <> [].
Proof. split; [by vm_compute|]. vm_compute. discriminate. Qed.

(** C3, counterexample.  batchAmount = 2 and a transport that refuses
    the flush of "hi" and "bye": between the second dispatch and the
    next, the queue of "promo" holds 2 elements, not at most 1. *)
Lemma refused_flush_exceeds_the_bound :
  (serve smtp repo 2 [promoHi; promoBye] (boot [refused])).1
  = [received; JSON StatusInternalServerError "error" "Failed to send email"]
  /\ notificationsMap (serve smtp repo 2 [promoHi; promoBye] (boot [refused])).2 !!! "promo"
     = [hi; bye]
  /\ 2 - 1 < Z.of_nat (length (notificationsMap
              (serve smtp repo 2 [promoHi; promoBye] (boot [refused])).2 !!! "promo")).
Proof. repeat split; by vm_compute. Qed.

(** What follows a refused flush: the transport works again, but the
    queue of "promo" has passed the threshold, so the next arrivals are
    answered [received] without any send and the queue keeps growing. *)
Lemma refused_flush_wedges_the_queue :
  (serve smtp repo 2 [promoHi; promoBye; promoHi; promoBye] (boot [refused])).1
  = [received; JSON StatusInternalServerError "error" "Failed to send email";
     received; received]
  /\ calls (serve smtp repo 2 [promoHi; promoBye; promoHi; promoBye] (boot [refused])).2
     = [CallSendEmail "a@x.com" ("hi" +:+ LF +:+ "bye" +:+ LF)]
  /\ notificationsMap
       (serve smtp repo 2 [promoHi; promoBye; promoHi; promoBye] (boot [refused])).2 !!! "promo"
     = [hi; bye; hi; bye].
Proof. repeat split; by vm_compute. Qed.

Lemma third_promo_starts_afresh :
  Z.of_nat (length (notificationsMap
              (serve smtp repo 2 [promoHi; promoBye; promoHi] (boot [])).2 !!! "promo"))
  <= 2 - 1.
Proof.
  apply (proj1 (queue_stays_below_threshold_unless_flush_fails smtp repo 2 ltac:(lia))
           "promo" [promoHi; promoBye; promoHi] (boot [])); [by vm_compute | reflexivity].
Defined.

(** C4.  An email notification of type "weekly" with valid metadata is
    answered [received] (HTTP 200), not 400; nothing is sent, stored or
    queued. *)
Theorem weekly_email_is_answered_received :
  POST_notification smtp repo 2 weekly (boot []) = (received, boot []).
Proof. by vm_compute. Qed.

(** The part of C4 about routes, at a request: "sms" is answered 400. *)
Lemma sms_route_is_rejected :
  POST_notification smtp repo 2 sms (boot [])
  = (JSON StatusBadRequest "error" "Invalid notification type", boot []).
Proof. by vm_compute. Qed.

(** C5, counterexample.  A system notification with email-shaped
    metadata is inserted and answered [received]. *)
Lemma misfiled_system_notification_is_stored :
  (POST_notification smtp repo 2 misfiled (boot [])).1 = received
  /\ calls (POST_notification smtp repo 2 misfiled (boot [])).2 = [CallInsert misfiled].
Proof. split; by vm_compute. Qed.

(** C6, counterexample.  An instant email whose metadata has no
    emailBody decodes, is sent with an empty body and answered
    [received]. *)
Lemma missing_emailBody_is_sent_empty :
  decodeEmail bodyless = Some {| EmailAddress := "a@x.com"; EmailBody := "" |}
  /\ POST_notification smtp repo 2 bodyless (boot [])
     = (received, mkState ∅ [] [CallSendEmail "a@x.com" ""]).
Proof. split; by vm_compute. Qed.

(** C10, counterexample.  batchAmount = 1 and a transport that refuses:
    the dispatch is rejected with a 500, and the batch map is not what
    it was. *)
Lemma rejected_flush_changes_the_map :
  isServerError (POST_notification smtp repo 1 promoHi (boot [refused])).1 = true
  /\ notificationsMap (boot [refused] : State script) !!! "promo" = []
  /\ notificationsMap (POST_notification smtp repo 1 promoHi (boot [refused])).2 !!! "promo"
     = [hi].
Proof. repeat split; by vm_compute. Qed.

End Scenarios.

(** ** Every answer of POST /notification *)

Section Answers.

Context {W : Type}.
Variable emailService : EmailService W.
Variable notificationRepo : NotificationRepository W.
Variable batchAmount : Z.

Abbreviation POST := (POST_notification emailService notificationRepo batchAmount).

Lemma batched_None_route notification :
  notification.(Notification.DeliveryRoute) <> Email -> batched notification = None.
Proof. intros Hroute. unfold batched. by rewrite decide_False. Qed.

Lemma batched_None_type notification :
  notification.(Notification.NotificationType) <> Batch -> batched notification = None.
Proof. intros Htype. unfold batched. case_decide; [|done]. by rewrite decide_False. Qed.

(** Every notification takes one of the branches. *)
Lemma POST_branch (notification : Notification) (st : State W) :
  Branch emailService notificationRepo batchAmount notification st.
Proof.
  destruct (decide (notification.(Notification.DeliveryRoute) = Email)) as [Hroute|Hroute].
  - destruct (decodeEmail notification) as [emailMetadata|] eqn:Hdec.
    2:{ apply Undecodable. by apply POST_email_undecodable. }
    destruct (decide (notification.(Notification.NotificationType) = Instant)) as [Hi|Hi].
    { apply InstantEmail with (address := emailMetadata.(EmailAddress))
                              (body := emailMetadata.(EmailBody)).
      - apply batched_None_type. by rewrite Hi.
      - by apply POST_instant. }
    destruct (decide (notification.(Notification.NotificationType) = Batch)) as [Hb|Hb].
    2:{ apply UnknownType; [by apply batched_None_type|].
        by apply (POST_email_other _ _ _ _ emailMetadata). }
    assert (batched notification = Some (notification.(Notification.EventName), emailMetadata))
      as Hbatched.
    { unfold batched. rewrite !decide_True by done. by rewrite Hdec. }
    pose proof (POST_batch emailService notificationRepo batchAmount notification emailMetadata
                  st Hroute Hb Hdec) as Hstep.
    cbn zeta in Hstep. rewrite joinBodies_mergedBody in Hstep.
    destruct (Z.eqb_spec
                (Z.of_nat (length (notificationsMap st !!! notification.(Notification.EventName)
                                   ++ [emailMetadata]))) batchAmount) as [Hfull|Hnot].
    + by eapply Flush.
    + by eapply Accumulate.
  - destruct (decide (notification.(Notification.DeliveryRoute) = System)) as [Hs|Hs].
    + apply SystemStore; [by apply batched_None_route|]. by apply POST_system.
    + apply UnknownRoute. by apply POST_unknown_route.
Qed.


End Answers.

(** ** The whole server *)

Section Routes.

Context {W : Type}.
Variable emailService : EmailService W.
Variable notificationRepo : NotificationRepository W.
Variable batchAmount : Z.

Abbreviation POST := (POST_notification emailService notificationRepo batchAmount).
Abbreviation handle := (route emailService notificationRepo batchAmount).
Abbreviation runAll := (serveRequests emailService notificationRepo batchAmount).

Lemma route_POST (notification : Notification) (st : State W) :
  handle (POSTNotification (inr notification)) st =
    (Answer (POST notification st).1, (POST notification st).2).
Proof. cbn. unfold bind, ret. by destruct (POST notification st). Qed.

Lemma serveRequests_cons (request : Request) (rest : list Request) (st : State W) :
  runAll (request :: rest) st =
    let (r, st1) := handle request st in
    let (rs, st2) := runAll rest st1 in
    (r :: rs, st2).
Proof.
  cbn [serveRequests]. unfold bind, ret.
  destruct (handle request st) as [r st1]. by destruct (runAll rest st1).
Qed.

(** The three endpoints of the store, and a body that does not bind,
    leave the batch map and the record of sends and inserts alone. *)
Lemma store_routes_keep_batches (request : Request) (st : State W) :
  (forall notification, request <> POSTNotification (inr notification)) ->
  notificationsMap (handle request st).2 = notificationsMap st
  /\ calls (handle request st).2 = calls st.
Proof.
  intros Hnot. destruct request as [[msg|notification]|  |id|id]; cbn.
  - done.
  - by destruct (Hnot notification).
  - unfold GET_notifications, bind, getAll, ret. by destruct (GetAll _ _) as [[ns [e|]] w].
  - unfold DELETE_notification, bind, remove, ret. by destruct (Remove _ _ _) as [[e|] w].
  - unfold PUT_notification_read, bind, markAsRead, ret. by destruct (MarkAsRead _ _ _) as [[e|] w].
Qed.

(** X2.  A request answered with a 400 had no effect at all: the batch
    map, the outside world and the record of calls are what they were.
    This covers a body that does not bind, metadata that does not decode
    and an unknown delivery route. *)
Theorem bad_request_has_no_effect (request : Request) (st : State W) :
  replyCode (handle request st).1 = Some StatusBadRequest ->
  (handle request st).2 = st.
Proof.
  destruct request as [[msg|notification]|  |id|id].
  - done.
  - rewrite route_POST. cbn [fst snd].
    destruct (POST_branch emailService notificationRepo batchAmount notification st)
      as [H|H|_ H|a b _ H|_ H|k e _ _ H|k e _ _ H]; rewrite H; cbn zeta; try done;
      try match goal with |- context [SendEmail ?s ?a ?b ?w] =>
            destruct (SendEmail s a b w) as [[?|] ?] end;
      try match goal with |- context [Insert ?r ?n ?w] =>
            destruct (Insert r n w) as [[?|] ?] end;
      by cbn.
  - cbn. unfold GET_notifications, bind, getAll, ret. by destruct (GetAll _ _) as [[ns [e|]] w].
  - cbn. unfold DELETE_notification, bind, remove, ret. by destruct (Remove _ _ _) as [[e|] w].
  - cbn. unfold PUT_notification_read, bind, markAsRead, ret. by destruct (MarkAsRead _ _ _) as [[e|] w].
Qed.

Lemma bound_or_not (request : Request) :
  (exists notification, request = POSTNotification (inr notification))
  \/ (forall notification, request <> POSTNotification (inr notification)).
Proof. destruct request as [[msg|notification]|  |id|id]; by eauto. Qed.



Lemma route_keeps_keys (request : Request) (st : State W) (key : string) :
  is_Some (notificationsMap st !! key) ->
  is_Some (notificationsMap (handle request st).2 !! key).
Proof.
  intros Hkey.
  destruct (bound_or_not request) as [[notification ->]|Hnot].
  - rewrite route_POST. cbn [fst snd].
    destruct (batched notification) as [[k emailMetadata]|] eqn:Hb.
    + destruct (batched_writes_own_key emailService notificationRepo batchAmount
                  notification k emailMetadata st Hb) as (_ & queue & ->).
      rewrite lookup_insert_is_Some. destruct (decide (k = key)); by auto.
    + by rewrite not_batched_keeps_map.
  - by destruct (store_routes_keep_batches request st Hnot) as [-> _].
Qed.

(** X4.  No request removes an event name from the batch map: a key
    that is there stays there along every run, and a valid email+batch
    notification leaves its own key there, also when it flushes (the
    queue is then the empty slice, not a missing entry). *)
Theorem event_names_are_never_removed :
  (forall (requests : list Request) (st : State W) (key : string),
     is_Some (notificationsMap st !! key) ->
     is_Some (notificationsMap (runAll requests st).2 !! key))
  /\ (forall (notification : Notification) (key : string) (emailMetadata : EmailMetadata)
             (st : State W),
        batched notification = Some (key, emailMetadata) ->
        is_Some (notificationsMap (POST notification st).2 !! key)).
Proof.
  split.
  - intros requests. induction requests as [|request requests IH]; intros st key Hkey; [done|].
    rewrite serveRequests_cons.
    pose proof (route_keeps_keys request st key Hkey) as Hstep.
    destruct (handle request st) as [r st1]. cbn [snd] in Hstep.
    specialize (IH st1 key Hstep). by destruct (runAll requests st1).
  - intros notification key emailMetadata st Hb.
    destruct (batched_writes_own_key emailService notificationRepo batchAmount
                notification key emailMetadata st Hb) as (_ & queue & ->).
    rewrite lookup_insert_eq. by eauto.
Qed.

End Routes.

(** ** Collaborators that do not fail *)

Section Reliable.

Context {W : Type}.
Variable emailService : EmailService W.
Variable notificationRepo : NotificationRepository W.
Variable batchAmount : Z.

Abbreviation POST := (POST_notification emailService notificationRepo batchAmount).
Abbreviation run := (serve emailService notificationRepo batchAmount).
Abbreviation handle := (route emailService notificationRepo batchAmount).
Abbreviation runAll := (serveRequests emailService notificationRepo batchAmount).

(** X5.  A queue that already holds batchAmount elements or more is
    never flushed by later arrivals: every further valid email+batch
    notification for its key is answered [received], nothing is sent,
    and the queue keeps all it had followed by the arrivals.  (The
    threshold test is an equality on the length after the append.) *)
Theorem full_queue_is_never_flushed
    (key : string) (requests : list Notification) (batch : list EmailMetadata) (st : State W) :
  batchAmount <= Z.of_nat (length (notificationsMap st !!! key)) ->
  mapM batched requests = Some (pair key <$> batch) ->
  (run requests st).1 = replicate (length requests) received
  /\ calls (run requests st).2 = calls st
  /\ world (run requests st).2 = world st
  /\ notificationsMap (run requests st).2 !!! key = notificationsMap st !!! key ++ batch.
Proof.
  intros Hfull Hreq.
  destruct (serve_accumulates emailService notificationRepo batchAmount requests
              (pair key <$> batch) st Hreq) as (m & Hrun & Hm).
  { intros key' j Hj. destruct (decide (key = key')) as [<-|Hne].
    - lia.
    - rewrite arrivals_other in Hj by done. cbn in Hj. lia. }
  rewrite Hrun. cbn. repeat split; try done. by rewrite Hm, arrivals_same.
Qed.

(** With a sender that never fails no dispatch is a failed flush. *)
Lemma reliable_no_failed_flush (key : string) (notification : Notification) (st : State W) :
  (forall address body w, (SendEmail emailService address body w).1 = None) ->
  failedFlush key notification (POST notification st).1 = false.
Proof.
  intros Hreliable. unfold failedFlush.
  destruct (batched notification) as [[k e]|] eqn:Hb; [|done].
  assert (isServerError (POST notification st).1 = false) as ->;
    [|by rewrite andb_false_r].
  destruct (POST_branch emailService notificationRepo batchAmount notification st)
    as [H|H|Hn H|a b Hn H|Hn H|k' e' _ _ H|k' e' _ _ H]; try congruence;
    rewrite H; try done.
  cbn zeta.
  match goal with |- context [SendEmail ?s ?a ?b ?w] =>
    pose proof (Hreliable a b w) as Hok; destruct (SendEmail s a b w) as [err w'] end.
  cbn in Hok. by subst err.
Qed.

End Reliable.

(** ** Counting flushes *)

Lemma succ_mod_wrap (m n : nat) :
  (Nat.modulo m n + 1 = n ->
   Nat.modulo (m + 1) n = 0 /\ Nat.div (m + 1) n = Nat.div m n + 1)%nat.
Proof.
  intros Hwrap. pose proof (Nat.div_mod_eq m n) as Hm.
  assert (m + 1 = n * (Nat.div m n + 1) + 0)%nat as Heq by nia.
  split; symmetry.
  - apply (Nat.mod_unique _ _ (Nat.div m n + 1)); [lia | done].
  - apply (Nat.div_unique _ _ _ 0); [lia | done].
Qed.

Lemma succ_mod_step (m n : nat) :
  (1 <= n -> Nat.modulo m n + 1 <> n ->
   Nat.modulo (m + 1) n = Nat.modulo m n + 1 /\ Nat.div (m + 1) n = Nat.div m n)%nat.
Proof.
  intros Hn Hstep. pose proof (Nat.div_mod_eq m n) as Hm.
  pose proof (Nat.mod_upper_bound m n ltac:(lia)) as Hlt.
  assert (m + 1 = n * Nat.div m n + (Nat.modulo m n + 1))%nat as Heq by lia.
  split; symmetry.
  - apply (Nat.mod_unique _ _ (Nat.div m n)); [lia | done].
  - apply (Nat.div_unique _ _ _ (Nat.modulo m n + 1)); [lia | done].
Qed.

Section Counting.

Context {W : Type}.
Variable emailService : EmailService W.
Variable notificationRepo : NotificationRepository W.
Variable batchAmount : Z.

Abbreviation POST := (POST_notification emailService notificationRepo batchAmount).
Abbreviation run := (serve emailService notificationRepo batchAmount).

(** X6.  With a sender that never fails and batchAmount = n >= 1, a run
    of m valid email+batch notifications for one key, from an empty
    queue, is answered [received] m times, makes m / n sends in all
    (one per full batch), and leaves the last m mod n elements queued,
    in arrival order. *)
Theorem reliable_run_flushes_every_nth
    (n : nat) (key : string) (requests : list Notification) (batch : list EmailMetadata)
    (st : State W) :
  batchAmount = Z.of_nat n ->
  (1 <= n)%nat ->
  (forall address body w, (SendEmail emailService address body w).1 = None) ->
  mapM batched requests = Some (pair key <$> batch) ->
  notificationsMap st !!! key = [] ->
  (run requests st).1 = replicate (length requests) received
  /\ (exists cs, calls (run requests st).2 = calls st ++ cs
                 /\ length cs = Nat.div (length requests) n)
  /\ notificationsMap (run requests st).2 !!! key
     = drop (length batch - Nat.modulo (length batch) n) batch
  /\ length (notificationsMap (run requests st).2 !!! key) = Nat.modulo (length requests) n.
Proof.
  intros HN Hn Hreliable Hreq Hempty. revert batch Hreq.
  induction requests as [|last front IH] using rev_ind; intros batch Hreq.
  - apply mapM_Some, Forall2_nil_inv_l in Hreq. destruct batch; [|done].
    cbn. rewrite Hempty, Nat.Div0.div_0_l, Nat.Div0.mod_0_l.
    repeat split; try done. exists []. by rewrite app_nil_r.
  - apply mapM_Some, Forall2_app_inv_l in Hreq as (k1 & k2 & Hfront & Hlast & Hsplit).
    apply fmap_app_inv in Hsplit as (older & newest & -> & -> & ->).
    apply Forall2_cons_inv_l in Hlast as (kn & k2' & Hlast & Hnil & Hk2).
    apply Forall2_nil_inv_l in Hnil as ->.
    destruct newest as [|newest [|? ?]]; try discriminate Hk2. injection Hk2 as <-.
    assert (length front = length older) as Hsame.
    { apply Forall2_length in Hfront. by rewrite length_fmap in Hfront. }
    destruct (IH older) as (Hrs & (cs & Hcs & Hcount) & Hqueue & Hlen); [by apply mapM_Some|].
    rewrite serve_app.
    destruct (run front st) as [rs1 st1]. cbn [fst snd] in Hrs, Hcs, Hqueue, Hlen.
    rewrite serve_one.
    apply batched_Some in Hlast as (Hroute & Htype & Hkey & Hdec).
    rewrite (POST_batch emailService notificationRepo batchAmount last newest _ Hroute Htype Hdec).
    cbn zeta. rewrite Hkey.
    rewrite !length_app. cbn [length]. rewrite Hlen, Hrs, HN.
    pose proof (Nat.mod_upper_bound (length front) n ltac:(lia)) as Hlt.
    destruct (Z.eqb_spec (Z.of_nat (Nat.modulo (length front) n + 1)) (Z.of_nat n))
      as [Hfull%Nat2Z.inj|Hnot].
    + destruct (succ_mod_wrap (length front) n Hfull) as [Hmod Hdiv].
      match goal with |- context [SendEmail ?s ?a ?b ?w] =>
        pose proof (Hreliable a b w) as Hok; destruct (SendEmail s a b w) as [err w'] end.
      cbn in Hok. subst err. cbn [fst snd notificationsMap calls sent].
      rewrite lookup_total_insert_eq, <- Hsame, Hmod, Hdiv, Nat.sub_0_r.
      repeat split.
      * by rewrite Nat.add_1_r, replicate_S_end.
      * eexists (cs ++ [_]). rewrite Hcs, app_assoc, length_app. split; [done|].
        cbn [length]. lia.
      * rewrite Hsame. symmetry. apply drop_ge. rewrite length_app. cbn. lia.
    + assert (Nat.modulo (length front) n + 1 <> n)%nat as Hstep by lia.
      destruct (succ_mod_step (length front) n Hn Hstep) as [Hmod Hdiv].
      cbn [fst snd notificationsMap calls].
      rewrite lookup_total_insert_eq, <- Hsame, Hmod, Hdiv.
      repeat split.
      * by rewrite Nat.add_1_r, replicate_S_end.
      * by exists cs.
      * rewrite Hqueue, <- Hsame.
        replace (length front + 1 - (Nat.modulo (length front) n + 1))%nat
          with (length front - Nat.modulo (length front) n)%nat by lia.
        rewrite drop_app_le; [done|]. rewrite <- Hsame. lia.
      * rewrite length_app. cbn [length]. lia.
Qed.

End Counting.

(** ** Replies of the whole server *)

Section Replies.

Context {W : Type}.
Variable emailService : EmailService W.
Variable notificationRepo : NotificationRepository W.
Variable batchAmount : Z.

Abbreviation POST := (POST_notification emailService notificationRepo batchAmount).
Abbreviation handle := (route emailService notificationRepo batchAmount).
Abbreviation runAll := (serveRequests emailService notificationRepo batchAmount).



(** With a sender that never fails, one request of any kind keeps the
    queue of a key below the threshold. *)
Lemma route_below_threshold (key : string) (request : Request) (st : State W) :
  (forall address body w, (SendEmail emailService address body w).1 = None) ->
  1 <= batchAmount ->
  Z.of_nat (length (notificationsMap st !!! key)) <= batchAmount - 1 ->
  Z.of_nat (length (notificationsMap (handle request st).2 !!! key)) <= batchAmount - 1.
Proof.
  intros Hreliable HN Hinv.
  destruct (bound_or_not request) as [[notification ->]|Hnot].
  - rewrite route_POST. cbn [snd].
    apply step_below_threshold; [done..|]. by apply reliable_no_failed_flush.
  - by destruct (store_routes_keep_batches emailService notificationRepo batchAmount
                   request st Hnot) as [-> _].
Qed.

Lemma run_below_threshold_reliable (key : string) (requests : list Request) (st : State W) :
  (forall address body w, (SendEmail emailService address body w).1 = None) ->
  1 <= batchAmount ->
  Z.of_nat (length (notificationsMap st !!! key)) <= batchAmount - 1 ->
  Z.of_nat (length (notificationsMap (runAll requests st).2 !!! key)) <= batchAmount - 1.
Proof.
  intros Hreliable HN. revert st.
  induction requests as [|request requests IH]; intros st Hinv; [done|].
  rewrite serveRequests_cons.
  pose proof (route_below_threshold key request st Hreliable HN Hinv) as Hstep.
  destruct (handle request st) as [r st1]. specialize (IH st1 Hstep).
  by destruct (runAll requests st1).
Qed.

End Replies.

(** X8.  Start-up accepts exactly the values "SMTP" and "OTHER" of
    EMAIL_PROTOCOL (anything else ends the process), and with the
    service either of them selects, whatever the repository and the
    requests on the four routes, every queue that starts with at most
    batchAmount - 1 elements (batchAmount >= 1) still holds at most that
    many after the run. *)
Theorem selected_service_keeps_queues_below_threshold
    {W : Type} (EMAIL_PROTOCOL : string) (emailService : EmailService W) :
  selectEmailService EMAIL_PROTOCOL = Some emailService ->
  (EMAIL_PROTOCOL = "SMTP" \/ EMAIL_PROTOCOL = "OTHER")
  /\ forall (notificationRepo : NotificationRepository W) (batchAmount : Z)
            (requests : list Request) (st : State W) (key : string),
       1 <= batchAmount ->
       Z.of_nat (length (notificationsMap st !!! key)) <= batchAmount - 1 ->
       Z.of_nat (length (notificationsMap
                   (serveRequests emailService notificationRepo batchAmount requests st).2
                   !!! key)) <= batchAmount - 1.
Proof.
  unfold selectEmailService. intros Hselect.
  assert ((EMAIL_PROTOCOL = "SMTP" \/ EMAIL_PROTOCOL = "OTHER")
          /\ forall address body w, (SendEmail emailService address body w).1 = None)
    as [Henv Hreliable].
  { repeat case_decide; simplify_eq; by auto. }
  split; [done|]. intros notificationRepo batchAmount requests st key HN Hinv.
  by apply run_below_threshold_reliable.
Qed.

(** ** One key at a time *)

Section Isolation.

Context {W : Type}.
Variable emailService : EmailService W.
Variable notificationRepo : NotificationRepository W.
Variable batchAmount : Z.

Abbreviation POST := (POST_notification emailService notificationRepo batchAmount).
Abbreviation handle := (route emailService notificationRepo batchAmount).
Abbreviation runAll := (serveRequests emailService notificationRepo batchAmount).

(** A request that is not a valid email+batch notification for [key]
    leaves the queue of [key] as it was. *)
Lemma other_request_keeps_queue (key : string) (request : Request) (st : State W) :
  forKey key request = false ->
  notificationsMap (handle request st).2 !!! key = notificationsMap st !!! key.
Proof.
  intros Hother.
  destruct (bound_or_not request) as [[notification ->]|Hnot].
  - rewrite route_POST. cbn [snd]. cbn in Hother.
    destruct (batched notification) as [[k emailMetadata]|] eqn:Hb.
    + destruct (batched_writes_own_key emailService notificationRepo batchAmount
                  notification k emailMetadata st Hb) as (_ & queue & ->).
      apply bool_decide_eq_false in Hother. by rewrite lookup_total_insert_ne.
    + by rewrite not_batched_keeps_map.
  - by destruct (store_routes_keep_batches emailService notificationRepo batchAmount
                   request st Hnot) as [-> _].
Qed.

(** The queue a valid email+batch notification leaves for its key is a
    function of the queue it found there, when the outcome of a send
    does not depend on the world. *)
Lemma same_queue_same_step (key : string) (request : Request) (st1 st2 : State W) :
  worldBlind emailService ->
  forKey key request = true ->
  notificationsMap st1 !!! key = notificationsMap st2 !!! key ->
  notificationsMap (handle request st1).2 !!! key
  = notificationsMap (handle request st2).2 !!! key.
Proof.
  intros Hblind Hfor Hsame.
  destruct request as [[msg|notification]|  |id|id]; try done.
  cbn in Hfor. destruct (batched notification) as [[k emailMetadata]|] eqn:Hb; [|done].
  apply bool_decide_eq_true in Hfor as ->.
  apply batched_Some in Hb as (Hroute & Htype & Hkey & Hdec).
  rewrite !route_POST. cbn [snd].
  rewrite !(POST_batch _ _ _ _ emailMetadata) by done. cbn zeta.
  rewrite Hkey, Hsame.
  destruct (Z.of_nat _ =? batchAmount).
  - match goal with |- context [SendEmail ?s ?a ?b (world st1)] =>
      pose proof (Hblind a b (world st1) (world st2)) as Hout;
      destruct (SendEmail s a b (world st1)) as [err1 w1];
      destruct (SendEmail s a b (world st2)) as [err2 w2] end.
    cbn in Hout. subst err2. destruct err1; cbn; by rewrite !lookup_total_insert_eq.
  - cbn. by rewrite !lookup_total_insert_eq.
Qed.

(** X9.  The queue of an event name depends on nothing but the valid
    email+batch notifications for that name: if the outcome of a send
    does not depend on the state of the world, then from two states that
    agree on the queue of [key], a run of requests on the four routes
    and the same run with all other requests left out end with the
    same queue for [key]. *)
Theorem queue_depends_on_own_notifications_only
    (key : string) (requests : list Request) (st1 st2 : State W) :
  worldBlind emailService ->
  notificationsMap st1 !!! key = notificationsMap st2 !!! key ->
  notificationsMap (runAll requests st1).2 !!! key
  = notificationsMap (runAll (List.filter (forKey key) requests) st2).2 !!! key.
Proof.
  intros Hblind. revert st1 st2.
  induction requests as [|request requests IH]; intros st1 st2 Hsame; [done|].
  cbn [List.filter]. destruct (forKey key request) eqn:Hfor.
  - rewrite !serveRequests_cons.
    pose proof (same_queue_same_step key request st1 st2 Hblind Hfor Hsame) as Hstep.
    destruct (handle request st1) as [r1 st1'], (handle request st2) as [r2 st2'].
    cbn [snd] in Hstep. specialize (IH st1' st2' Hstep).
    by destruct (runAll requests st1'), (runAll (List.filter (forKey key) requests) st2').
  - rewrite serveRequests_cons.
    pose proof (other_request_keeps_queue key request st1 Hfor) as Hstep.
    destruct (handle request st1) as [r1 st1']. cbn [snd] in Hstep.
    rewrite <- Hstep in Hsame. specialize (IH st1' st2 Hsame).
    by destruct (runAll requests st1').
Qed.

End Isolation.

(** ** Nothing lost, nothing sent twice *)

Lemma mergedBody_app (batch1 batch2 : list EmailMetadata) :
  mergedBody (batch1 ++ batch2) = mergedBody batch1 +:+ mergedBody batch2.
Proof.
  induction batch1 as [|email batch1 IH]; [done|].
  cbn [app mergedBody]. by rewrite IH, !append_assoc.
Qed.

Lemma sentBodies_app (cs1 cs2 : list Call) :
  sentBodies (cs1 ++ cs2) = sentBodies cs1 +:+ sentBodies cs2.
Proof.
  induction cs1 as [|[address body|item] cs1 IH]; [done| |done].
  cbn [app sentBodies]. by rewrite IH, append_assoc.
Qed.

Section Conservation.

Context {W : Type}.
Variable emailService : EmailService W.
Variable notificationRepo : NotificationRepository W.
Variable batchAmount : Z.

Abbreviation POST := (POST_notification emailService notificationRepo batchAmount).
Abbreviation run := (serve emailService notificationRepo batchAmount).

(** X10.  With a sender that never fails, a run of valid email+batch
    notifications for one key neither loses a body nor sends one twice:
    the bodies of the mails sent during the run, followed by the bodies
    still queued at its end, are exactly the bodies queued at its start
    followed by those that arrived, each once and in arrival order.
    This holds for every batchAmount. *)
Theorem bodies_are_sent_once_in_order
    (key : string) (requests : list Notification) (batch : list EmailMetadata) (st : State W) :
  (forall address body w, (SendEmail emailService address body w).1 = None) ->
  mapM batched requests = Some (pair key <$> batch) ->
  exists cs,
    calls (run requests st).2 = calls st ++ cs
    /\ sentBodies cs +:+ mergedBody (notificationsMap (run requests st).2 !!! key)
       = mergedBody (notificationsMap st !!! key ++ batch).
Proof.
  intros Hreliable Hreq%mapM_Some. revert batch Hreq st.
  induction requests as [|notification requests IH]; intros batch Hreq st.
  - apply Forall2_nil_inv_l in Hreq. destruct batch; [|done].
    exists []. cbn. by rewrite !app_nil_r.
  - apply Forall2_cons_inv_l in Hreq as ([k emailMetadata] & keyed & Hn & Hrest & Hsplit).
    destruct batch as [|email batch]; [done|].
    cbn in Hsplit. injection Hsplit as Hk He Hkeyed. subst k keyed email.
    apply batched_Some in Hn as (Hroute & Htype & Hkey & Hdec).
    rewrite serve_cons.
    rewrite (POST_batch _ _ _ _ emailMetadata) by done. cbn zeta. rewrite Hkey.
    set (queue := notificationsMap st !!! key ++ [emailMetadata]).
    replace (notificationsMap st !!! key ++ emailMetadata :: batch) with (queue ++ batch)
      by (subst queue; by rewrite <- app_assoc).
    destruct (Z.of_nat (length queue) =? batchAmount).
    + rewrite joinBodies_mergedBody.
      match goal with |- context [SendEmail ?s ?a ?b ?w] =>
        pose proof (Hreliable a b w) as Hok; destruct (SendEmail s a b w) as [err w'] end.
      cbn in Hok. subst err. cbn [sent].
      match goal with |- context [run requests ?s1] =>
        destruct (IH batch Hrest s1) as (cs & Hcs & Hbodies);
        destruct (run requests s1) as [rs st2] end.
      cbn [fst snd calls notificationsMap] in *.
      rewrite lookup_total_insert_eq in Hbodies. cbn [app] in Hbodies.
      eexists (_ :: cs). rewrite Hcs, <- app_assoc. split; [done|].
      cbn [sentBodies]. by rewrite append_assoc, Hbodies, mergedBody_app.
    + match goal with |- context [run requests ?s1] =>
        destruct (IH batch Hrest s1) as (cs & Hcs & Hbodies);
        destruct (run requests s1) as [rs st2] end.
      cbn [fst snd calls notificationsMap] in *.
      rewrite lookup_total_insert_eq in Hbodies.
      exists cs. by split.
Qed.

End Conservation.

(** ** Members the decoder skips *)

Lemma object_known (members : list (string * json)) (d : Json.decodeState) :
  Json.object members d = Json.object (List.filter known members) d.
Proof.
  revert d. induction members as [|[key item] members IH]; intros d; [done|].
  cbn [Json.object List.filter]. unfold known at 1. cbn [fst].
  destruct (Json.findField key) as [f|] eqn:Hf; [|by apply IH].
  cbn [Json.object]. rewrite Hf. by apply IH.
Qed.

(** X11.  On the email route the members of the metadata object whose
    key selects neither emailAddress nor emailBody play no part: the
    dispatch of a notification and that of the same notification with
    those members removed give the same answer and the same state. *)
Theorem unknown_metadata_members_are_ignored
    {W : Type} (emailService : EmailService W) (notificationRepo : NotificationRepository W)
    (batchAmount : Z) (notification : Notification) (members : list (string * json))
    (st : State W) :
  notification.(Notification.DeliveryRoute) = Email ->
  POST_notification emailService notificationRepo batchAmount
    (withMetadata notification (Some (JObject members))) st
  = POST_notification emailService notificationRepo batchAmount
      (withMetadata notification (Some (JObject (List.filter known members)))) st.
Proof.
  intros Hroute. unfold POST_notification.
  cbn [withMetadata Notification.DeliveryRoute Notification.NotificationType
       Notification.EventName Notification.Metadata Json.Unmarshal].
  rewrite !decide_True by done. by rewrite (object_known members).
Qed.

(** ** The endpoints of the store *)

(** X12.  Listing, removing and marking as read, and a POST whose body
    does not bind, never disturb the batches: along a run made of such
    requests only, whatever the repository answers, the batch map stays
    what it was and no send or insert is made. *)
Theorem store_requests_leave_batches_alone
    {W : Type} (emailService : EmailService W) (notificationRepo : NotificationRepository W)
    (batchAmount : Z) (requests : list Request) (st : State W) :
  forallb (fun request => negb (isDispatch request)) requests = true ->
  notificationsMap (serveRequests emailService notificationRepo batchAmount requests st).2
  = notificationsMap st
  /\ calls (serveRequests emailService notificationRepo batchAmount requests st).2 = calls st.
Proof.
  revert st. induction requests as [|request requests IH]; intros st Hstore; [done|].
  cbn [forallb] in Hstore. apply andb_true_iff in Hstore as [Hrequest Hrest].
  rewrite serveRequests_cons.
  destruct (store_routes_keep_batches emailService notificationRepo batchAmount request st)
    as [Hmap Hcalls].
  { intros notification ->. done. }
  destruct (route emailService notificationRepo batchAmount request st) as [r st1].
  cbn [snd] in Hmap, Hcalls. destruct (IH st1 Hrest) as [Hmap' Hcalls'].
  destruct (serveRequests emailService notificationRepo batchAmount requests st1) as [rs st2].
  cbn [snd] in *. split; congruence.
Qed.

(** ** The further properties at concrete requests *)

Section Traffic.

Abbreviation smtp := (SMTPService : EmailService unit).
Abbreviation repo := (NotificationRepositoryImpl : NotificationRepository unit).


Lemma unbound_body_has_no_effect :
  (route smtp repo 2 (POSTNotification (inl "unexpected EOF")) (boot tt)).2 = boot tt.
Proof.
  exact (bad_request_has_no_effect smtp repo 2 (POSTNotification (inl "unexpected EOF"))
           (boot tt) eq_refl).
Defined.

Lemma full_promo_queue_only_grows :
  (serve smtp repo 2 [promoHi] (mkState {["promo" := [hi; bye]]} tt [])).1 = [received]
  /\ calls (serve smtp repo 2 [promoHi] (mkState {["promo" := [hi; bye]]} tt [])).2 = []
  /\ notificationsMap (serve smtp repo 2 [promoHi] (mkState {["promo" := [hi; bye]]} tt [])).2
       !!! "promo" = [hi; bye; hi].
Proof.
  destruct (full_queue_is_never_flushed smtp repo 2 "promo" [promoHi] [hi]
              (mkState {["promo" := [hi; bye]]} tt []))
    as (Hanswers & Hcalls & _ & Hqueue); [by vm_compute | reflexivity |].
  exact (conj Hanswers (conj Hcalls Hqueue)).
Defined.

Lemma three_promos_make_one_send :
  (exists cs, calls (serve smtp repo 2 [promoHi; promoBye; promoHi] (boot tt)).2 = [] ++ cs
              /\ length cs = 1%nat)
  /\ notificationsMap (serve smtp repo 2 [promoHi; promoBye; promoHi] (boot tt)).2 !!! "promo"
     = [hi].
Proof.
  destruct (reliable_run_flushes_every_nth smtp repo 2 2 "promo" [promoHi; promoBye; promoHi]
              [hi; bye; hi] (boot tt))
    as (_ & Hcalls & Hqueue & _); [reflexivity | lia | done | reflexivity | reflexivity |].
  exact (conj Hcalls Hqueue).
Defined.


Lemma smtp_keeps_promo_below_two :
  Z.of_nat (length (notificationsMap (serveRequests smtp repo 2 traffic (boot tt)).2
                      !!! "promo")) <= 2 - 1.
Proof.
  apply (proj2 (selected_service_keeps_queues_below_threshold "SMTP" smtp eq_refl));
    [lia | by vm_compute].
Defined.

Lemma promo_queue_ignores_other_traffic :
  notificationsMap (serveRequests smtp repo 2 traffic (boot tt)).2 !!! "promo"
  = notificationsMap
      (serveRequests smtp repo 2 (List.filter (forKey "promo") traffic) (boot tt)).2 !!! "promo".
Proof.
  apply (queue_depends_on_own_notifications_only smtp repo 2 "promo" traffic (boot tt) (boot tt));
    [done | reflexivity].
Defined.

Lemma three_promos_lose_no_body :
  exists cs,
    calls (serve smtp repo 2 [promoHi; promoBye; promoHi] (boot tt)).2 = [] ++ cs
    /\ sentBodies cs
       +:+ mergedBody
             (notificationsMap (serve smtp repo 2 [promoHi; promoBye; promoHi] (boot tt)).2
                !!! "promo")
       = mergedBody ([] ++ [hi; bye; hi]).
Proof.
  apply (bodies_are_sent_once_in_order smtp repo 2 "promo" [promoHi; promoBye; promoHi]
           [hi; bye; hi] (boot tt)); [done | reflexivity].
Defined.

Lemma noisy_metadata_is_read_as_hi :
  POST_notification smtp repo 2 (withMetadata promoHi (Some (JObject noisy))) (boot tt)
  = POST_notification smtp repo 2
      (withMetadata promoHi (Some (JObject (List.filter known noisy)))) (boot tt).
Proof.
  exact (unknown_metadata_members_are_ignored smtp repo 2 promoHi noisy (boot tt) eq_refl).
Defined.

Lemma store_traffic_leaves_promo_queued :
  notificationsMap
    (serveRequests smtp downRepository 2
       [GETNotifications; DELETENotification "u-1"; PUTNotificationRead "u-1"]
       (mkState {["promo" := [hi]]} tt [])).2 = {["promo" := [hi]]}
  /\ calls
       (serveRequests smtp downRepository 2
          [GETNotifications; DELETENotification "u-1"; PUTNotificationRead "u-1"]
          (mkState {["promo" := [hi]]} tt [])).2 = [].
Proof.
  exact (store_requests_leave_batches_alone smtp downRepository 2
           [GETNotifications; DELETENotification "u-1"; PUTNotificationRead "u-1"]
           (mkState {["promo" := [hi]]} tt []) eq_refl).
Defined.

End Traffic.
